(** * Payment service: idempotent submission with bounded retries

    A shallow embedding of the Go packages [model], [repository] and
    [service] of the payment-processing microservice, followed by the
    properties of the submission workflow.

    Conventions.
    - Go's [error] is the inductive [error]; a [nil] error is [None].
    - A Go function returning [(T, error)] returns a [result T]; a method
      that mutates the record behind its pointer argument returns the
      mutated record.
    - Everything outside the process (the database, the random source, the
      clock) lives in a [World] that is threaded through every call.
    - Calls to the logger have no influence on any result and are left out. *)

From Stdlib Require Import ZArith NArith List String Ascii Bool Lia.
From Stdlib Require Import DecimalString.
Import ListNotations.

Local Open Scope string_scope.
Local Open Scope Z_scope.

(* ================================================================== *)
(** ** Errors *)

Inductive error : Type :=
| errorString (msg : string)          (* errors.New, fmt.Errorf *)
| ErrRecordNotFound                   (* gorm.ErrRecordNotFound *)
| ErrUniqueViolation (index : string) (* driver error, SQLSTATE 23505 *)
| ErrDriver (msg : string).           (* any other driver or connection error *)

Definition Error (e : error) : string :=
  match e with
  | errorString msg => msg
  | ErrRecordNotFound => "record not found"
  | ErrUniqueViolation index =>
      ("duplicate key value violates unique constraint " ++ index)%string
  | ErrDriver msg => msg
  end.

Inductive result (A : Type) : Type :=
| Ok (a : A)
| Err (e : error).
Arguments Ok {A} a.
Arguments Err {A} e.

(** [%d] and [%v] of package fmt, at the types the service uses them. *)
Definition fmt_d (z : Z) : string := NilZero.string_of_int (Z.to_int z).

Definition fmt_v (e : option error) : string :=
  match e with
  | Some e => Error e
  | None => "<nil>"
  end.

(* ================================================================== *)
(** ** Package github.com/google/uuid (external)

    A UUID is 16 bytes; it is kept as the 128-bit number the bytes spell,
    most significant byte first. *)

Definition UUID : Type := N.

Definition uuid_Nil : UUID := 0%N.

(** [uuid.New]: sixteen random bytes with the version and variant bits
    forced: [b[6] = b[6] & 0x0f | 0x40] and [b[8] = b[8] & 0x3f | 0x80]. *)
Definition uuid_stamp (r : N) : UUID :=
  let r := (r mod 2 ^ 128)%N in
  let r := N.clearbit (N.clearbit (N.clearbit (N.clearbit r 79) 78) 77) 76 in
  let r := N.setbit r 78 in
  let r := N.clearbit (N.clearbit r 63) 62 in
  N.setbit r 63.

Definition hexdigit (n : N) : ascii :=
  if (n <? 10)%N then ascii_of_N (48 + n) else ascii_of_N (87 + n).

Fixpoint hex (digits : nat) (n : N) (acc : string) : string :=
  match digits with
  | O => acc
  | S d => hex d (N.shiftr n 4) (String (hexdigit (N.land n 15)) acc)
  end.

(** [UUID.String]: xxxxxxxx-xxxx-xxxx-xxxx-xxxxxxxxxxxx, lower case. *)
Definition uuid_String (u : UUID) : string :=
  let h := hex 32 u EmptyString in
  (substring 0 8 h ++ "-" ++ substring 8 4 h ++ "-" ++ substring 12 4 h
     ++ "-" ++ substring 16 4 h ++ "-" ++ substring 20 12 h)%string.

Definition xval (c : ascii) : option N :=
  let n := N_of_ascii c in
  if ((48 <=? n) && (n <=? 57))%N then Some (n - 48)%N
  else if ((97 <=? n) && (n <=? 102))%N then Some (n - 87)%N
  else if ((65 <=? n) && (n <=? 70))%N then Some (n - 55)%N
  else None.

Fixpoint parse_hex (s : string) (acc : N) : option N :=
  match s with
  | EmptyString => Some acc
  | String c s =>
      match xval c with
      | Some v => parse_hex s (acc * 16 + v)%N
      | None => None
      end
  end.

Definition is_dash (s : string) (n : nat) : bool :=
  match get n s with
  | Some c => Ascii.eqb c "-"
  | None => false
  end.

(** The 36-byte form, read at fixed offsets; bytes after offset 35 are not
    looked at. *)
Definition parse_hyphenated (s : string) : option UUID :=
  if is_dash s 8 && is_dash s 13 && is_dash s 18 && is_dash s 23 then
    parse_hex (substring 0 8 s ++ substring 9 4 s ++ substring 14 4 s
                 ++ substring 19 4 s ++ substring 24 12 s)%string 0%N
  else None.

Definition to_lower (c : ascii) : ascii :=
  let n := N_of_ascii c in
  if ((65 <=? n) && (n <=? 90))%N then ascii_of_N (n + 32) else c.

Fixpoint lower (s : string) : string :=
  match s with
  | EmptyString => EmptyString
  | String c s => String (to_lower c) (lower s)
  end.

(** [uuid.Parse]: the plain, urn-prefixed, braced and undashed forms. The
    error it returns is not inspected by the service, so failure is [None]. *)
Definition uuid_Parse (s : string) : option UUID :=
  let n := String.length s in
  if Nat.eqb n 36 then parse_hyphenated s
  else if Nat.eqb n 45 then
    if String.eqb (lower (substring 0 9 s)) "urn:uuid:"
    then parse_hyphenated (substring 9 36 s) else None
  else if Nat.eqb n 38 then parse_hyphenated (substring 1 37 s)
  else if Nat.eqb n 32 then parse_hex s 0%N
  else None.

(* ================================================================== *)
(** ** Package model: the data types *)

Module model.

(** [type PaymentStatus string] *)
Definition PaymentStatus : Type := string.

Definition StatusInitiated : PaymentStatus := "INITIATED".
Definition StatusSuccess : PaymentStatus := "SUCCESS".
Definition StatusFailed : PaymentStatus := "FAILED".

(** Timestamps are nanoseconds on the world's clock; 0 is the zero time. *)
Record Payment : Type := mkPayment {
  ID : UUID;
  UserID : string;
  Amount : Z;
  Currency : string;
  Status : PaymentStatus;
  IdempotencyKey : string;
  RetryCount : Z;
  FailureReason : string;
  CreatedAt : Z;
  UpdatedAt : Z
}.

Record CreatePaymentRequest : Type := mkRequest {
  req_IdempotencyKey : string;
  req_Amount : Z;
  req_Currency : string;
  req_UserID : string
}.

Record PaymentResponse : Type := mkResponse {
  PaymentID : string;
  resp_Status : PaymentStatus;
  resp_Amount : Z;
  resp_Currency : string;
  resp_CreatedAt : Z
}.

(** Assignments to one field of a [*Payment]. *)
Definition with_ID (v : UUID) (p : Payment) : Payment :=
  mkPayment v (UserID p) (Amount p) (Currency p) (Status p)
    (IdempotencyKey p) (RetryCount p) (FailureReason p) (CreatedAt p)
    (UpdatedAt p).
Definition with_Status (v : PaymentStatus) (p : Payment) : Payment :=
  mkPayment (ID p) (UserID p) (Amount p) (Currency p) v
    (IdempotencyKey p) (RetryCount p) (FailureReason p) (CreatedAt p)
    (UpdatedAt p).
Definition with_RetryCount (v : Z) (p : Payment) : Payment :=
  mkPayment (ID p) (UserID p) (Amount p) (Currency p) (Status p)
    (IdempotencyKey p) v (FailureReason p) (CreatedAt p) (UpdatedAt p).
Definition with_FailureReason (v : string) (p : Payment) : Payment :=
  mkPayment (ID p) (UserID p) (Amount p) (Currency p) (Status p)
    (IdempotencyKey p) (RetryCount p) v (CreatedAt p) (UpdatedAt p).
Definition with_CreatedAt (v : Z) (p : Payment) : Payment :=
  mkPayment (ID p) (UserID p) (Amount p) (Currency p) (Status p)
    (IdempotencyKey p) (RetryCount p) (FailureReason p) v (UpdatedAt p).
Definition with_UpdatedAt (v : Z) (p : Payment) : Payment :=
  mkPayment (ID p) (UserID p) (Amount p) (Currency p) (Status p)
    (IdempotencyKey p) (RetryCount p) (FailureReason p) (CreatedAt p) v.

End model.
Import model.

(* ================================================================== *)
(** ** The world outside the process *)

(** What the database does when the n-th statement of the run reaches it:
    nothing special, a fault (connection loss and the like), or the INSERT
    of a concurrent request committing just before the statement. *)
Inductive db_event : Type :=
| Quiet
| Fault (msg : string)
| Racing (p : Payment).

Record World : Type := mkWorld {
  rows : list Payment;        (* table payments, in insertion order *)
  db_calls : nat;             (* statements sent so far *)
  db_env : nat -> db_event;
  attempts : nat;             (* processing attempts made so far *)
  gateway : nat -> bool;      (* n-th draw: rand.Float64() < FailureRate *)
  uuid_calls : nat;           (* calls of uuid.New so far *)
  uuid_rand : nat -> N;
  clock : Z;                  (* nanoseconds *)
  sleeps : list Z             (* every time.Sleep so far, oldest first *)
}.

Definition set_rows (v : list Payment) (w : World) : World :=
  mkWorld v (db_calls w) (db_env w) (attempts w) (gateway w) (uuid_calls w)
    (uuid_rand w) (clock w) (sleeps w).
Definition set_db_calls (v : nat) (w : World) : World :=
  mkWorld (rows w) v (db_env w) (attempts w) (gateway w) (uuid_calls w)
    (uuid_rand w) (clock w) (sleeps w).
Definition set_attempts (v : nat) (w : World) : World :=
  mkWorld (rows w) (db_calls w) (db_env w) v (gateway w) (uuid_calls w)
    (uuid_rand w) (clock w) (sleeps w).
Definition set_uuid_calls (v : nat) (w : World) : World :=
  mkWorld (rows w) (db_calls w) (db_env w) (attempts w) (gateway w) v
    (uuid_rand w) (clock w) (sleeps w).

Definition Millisecond : Z := 1000000.

Definition time_Sleep (d : Z) (w : World) : World :=
  mkWorld (rows w) (db_calls w) (db_env w) (attempts w) (gateway w)
    (uuid_calls w) (uuid_rand w) (clock w + d) (sleeps w ++ [d])%list.

Definition uuid_New (w : World) : UUID * World :=
  (uuid_stamp (uuid_rand w (uuid_calls w)),
   set_uuid_calls (S (uuid_calls w)) w).

(** [func (p *Payment) BeforeCreate(tx *gorm.DB) error] *)
Definition BeforeCreate (p : Payment) (w : World) : Payment * World :=
  if N.eqb (ID p) uuid_Nil then
    let '(u, w) := uuid_New w in (with_ID u p, w)
  else (p, w).

(* ================================================================== *)
(** ** Package gorm.io/gorm over table payments (external)

    The table has primary key [id] and a unique index on
    [idempotency_key] (the struct tags of [model.Payment]). *)

Definition same_id (i : UUID) (q : Payment) : bool := N.eqb (ID q) i.

Definition same_key (k : string) (q : Payment) : bool :=
  String.eqb (IdempotencyKey q) k.

(** The constraint an INSERT of [p] would violate, if any. *)
Definition violated (p : Payment) (tbl : list Payment) : option string :=
  if existsb (same_id (ID p)) tbl then Some "payments_pkey"%string
  else if existsb (same_key (IdempotencyKey p)) tbl
       then Some "idx_payments_idempotency_key"%string
       else None.

(** A statement reaches the database: the environment's event for it is
    consumed. A racing INSERT is subject to the same constraints. *)
Definition arrive (w : World) : option string * World :=
  let w' := set_db_calls (S (db_calls w)) w in
  match db_env w (db_calls w) with
  | Quiet => (None, w')
  | Fault msg => (Some msg, w')
  | Racing q =>
      match violated q (rows w) with
      | None => (None, set_rows (rows w ++ [q])%list w')
      | Some _ => (None, w')
      end
  end.

(** [db.Create(p)]: hook, timestamps, INSERT. *)
Definition gorm_Create (p : Payment) (w : World)
  : option error * Payment * World :=
  let '(p, w) := BeforeCreate p w in
  let p := if CreatedAt p =? 0 then with_CreatedAt (clock w) p else p in
  let p := if UpdatedAt p =? 0 then with_UpdatedAt (clock w) p else p in
  match arrive w with
  | (Some msg, w) => (Some (ErrDriver msg), p, w)
  | (None, w) =>
      match violated p (rows w) with
      | Some index => (Some (ErrUniqueViolation index), p, w)
      | None => (None, p, set_rows (rows w ++ [p])%list w)
      end
  end.

(** [db.Where(cond).First(&p)]. With the constraints of the table at most
    one row matches either condition the repository uses. *)
Definition gorm_First (cond : Payment -> bool) (w : World)
  : result Payment * World :=
  match arrive w with
  | (Some msg, w) => (Err (ErrDriver msg), w)
  | (None, w) =>
      match find cond (rows w) with
      | Some p => (Ok p, w)
      | None => (Err ErrRecordNotFound, w)
      end
  end.

(** UPDATE ... WHERE id = [ID p], all fields. *)
Definition overwrite (p : Payment) (tbl : list Payment) : list Payment :=
  map (fun q => if same_id (ID p) q then p else q) tbl.

(** [db.Save(p)]: a record without primary key is created; otherwise all
    fields of the row with that id are overwritten, and the record is
    inserted when there is no such row. The service never changes the key
    of a record, so the UPDATE cannot violate the unique index. *)
Definition gorm_Save (p : Payment) (w : World)
  : option error * Payment * World :=
  if N.eqb (ID p) uuid_Nil then gorm_Create p w
  else
    let p := with_UpdatedAt (clock w) p in
    match arrive w with
    | (Some msg, w) => (Some (ErrDriver msg), p, w)
    | (None, w) =>
        if existsb (same_id (ID p)) (rows w) then
          (None, p, set_rows (overwrite p (rows w)) w)
        else
          match violated p (rows w) with
          | Some index => (Some (ErrUniqueViolation index), p, w)
          | None => (None, p, set_rows (rows w ++ [p])%list w)
          end
    end.

(* ================================================================== *)
(** ** Package repository *)

Module repository.

Definition Create (payment : Payment) (w : World)
  : option error * Payment * World :=
  gorm_Create payment w.

Definition GetByID (id : UUID) (w : World) : result Payment * World :=
  match gorm_First (same_id id) w with
  | (Err err, w) =>
      match err with
      | ErrRecordNotFound => (Err (errorString "payment not found"), w)
      | _ => (Err err, w)
      end
  | (Ok payment, w) => (Ok payment, w)
  end.

(** [(nil, nil)] is [Ok None]. *)
Definition GetByIdempotencyKey (key : string) (w : World)
  : result (option Payment) * World :=
  match gorm_First (same_key key) w with
  | (Err err, w) =>
      match err with
      | ErrRecordNotFound => (Ok None, w)
      | _ => (Err err, w)
      end
  | (Ok payment, w) => (Ok (Some payment), w)
  end.

Definition Update (payment : Payment) (w : World)
  : option error * Payment * World :=
  gorm_Save payment w.

End repository.

(* ================================================================== *)
(** ** Package service *)

Module service.

Definition MaxRetries : Z := 3.
Definition MinAmount : Z := 1.
Definition MaxAmount : Z := 1000000.

Definition validatePaymentRequest (req : CreatePaymentRequest)
  : option error :=
  if req_Amount req <? MinAmount then
    Some (errorString ("amount must be at least " ++ fmt_d MinAmount))
  else if req_Amount req >? MaxAmount then
    Some (errorString ("amount cannot exceed " ++ fmt_d MaxAmount))
  else if negb (Nat.eqb (String.length (req_Currency req)) 3) then
    Some (errorString "currency must be a 3-letter ISO code")
  else if String.eqb (req_IdempotencyKey req) "" then
    Some (errorString "idempotency key is required")
  else if String.eqb (req_UserID req) "" then
    Some (errorString "user ID is required")
  else None.

Definition toPaymentResponse (payment : Payment) : PaymentResponse :=
  {| PaymentID := uuid_String (ID payment);
     resp_Status := Status payment;
     resp_Amount := Amount payment;
     resp_Currency := Currency payment;
     resp_CreatedAt := CreatedAt payment |}.

(** One attempt. The draw of the random source is the world's next
    [gateway] bit; [true] means it fell below [FailureRate]. *)
Definition simulatePaymentProcessing (payment : Payment) (w : World)
  : option error * World :=
  let failed := gateway w (attempts w) in
  let w := set_attempts (S (attempts w)) w in
  if failed then (Some (errorString "payment gateway timeout"), w)
  else (None, time_Sleep (50 * Millisecond) w).

(** [time.Duration(i+1) * 100 * time.Millisecond] *)
Definition backoff (i : Z) : Z := (i + 1) * 100 * Millisecond.

(** The body of [for i := 0; i < MaxRetries; i++], with [remaining] the
    number of iterations still to run, [MaxRetries - i]. *)
Fixpoint retry_loop (remaining : nat) (i : Z) (payment : Payment)
    (lastErr : option error) (w : World) : option error * Payment * World :=
  match remaining with
  | O =>
      (Some (errorString ("payment failed after " ++ fmt_d MaxRetries
                            ++ " retries: " ++ fmt_v lastErr)),
       payment, w)
  | S remaining =>
      let payment := with_RetryCount (i + 1) payment in
      match simulatePaymentProcessing payment w with
      | (Some err, w) =>
          let lastErr := Some err in
          let w := if i <? MaxRetries - 1
                   then time_Sleep (backoff i) w else w in
          retry_loop remaining (i + 1) payment lastErr w
      | (None, w) =>
          let payment := with_Status StatusSuccess payment in
          let '(_, payment, w) := repository.Update payment w in
          (None, payment, w)
      end
  end.

Definition processPaymentWithRetry (payment : Payment) (w : World)
  : option error * Payment * World :=
  retry_loop (Z.to_nat MaxRetries) 0 payment None w.

Definition CreatePayment (req : CreatePaymentRequest) (w : World)
  : result PaymentResponse * World :=
  match validatePaymentRequest req with
  | Some err => (Err err, w)
  | None =>
      match repository.GetByIdempotencyKey (req_IdempotencyKey req) w with
      | (Err err, w) => (Err err, w)
      | (Ok (Some existingPayment), w) =>
          (Ok (toPaymentResponse existingPayment), w)
      | (Ok None, w) =>
          let payment :=
            {| ID := uuid_Nil;
               UserID := req_UserID req;
               Amount := req_Amount req;
               Currency := req_Currency req;
               Status := StatusInitiated;
               IdempotencyKey := req_IdempotencyKey req;
               RetryCount := 0;
               FailureReason := "";
               CreatedAt := 0;
               UpdatedAt := 0 |} in
          match repository.Create payment w with
          | (Some err, _, w) => (Err err, w)
          | (None, payment, w) =>
              match processPaymentWithRetry payment w with
              | (Some err, payment, w) =>
                  let payment := with_Status StatusFailed payment in
                  let payment := with_FailureReason (Error err) payment in
                  let '(_, payment, w) := repository.Update payment w in
                  (Ok (toPaymentResponse payment), w)
              | (None, payment, w) => (Ok (toPaymentResponse payment), w)
              end
          end
      end
  end.

Definition GetPayment (paymentID : string) (w : World)
  : result PaymentResponse * World :=
  match uuid_Parse paymentID with
  | None => (Err (errorString "invalid payment ID format"), w)
  | Some id =>
      match repository.GetByID id w with
      | (Err err, w) => (Err err, w)
      | (Ok payment, w) => (Ok (toPaymentResponse payment), w)
      end
  end.

End service.
Import service.

(* ================================================================== *)
(** ** Package handler

    The gin context is reduced to what the handlers read from it and write
    to it: the result of [c.ShouldBindJSON(&req)] or the path parameter
    goes in, the status code and the value given to [c.JSON] come out. *)

Inductive body : Type :=
| ErrorBody (title details : string)   (* gin.H{"error": .., "details": ..} *)
| PaymentBody (resp : PaymentResponse).

Record Response : Type := mkHTTP {
  code : Z;
  payload : body
}.

Definition StatusOK : Z := 200.
Definition StatusCreated : Z := 201.
Definition StatusBadRequest : Z := 400.
Definition StatusNotFound : Z := 404.
Definition StatusInternalServerError : Z := 500.

Module handler.

Definition CreatePayment (bound : result CreatePaymentRequest) (w : World)
  : Response * World :=
  match bound with
  | Err err =>
      (mkHTTP StatusBadRequest
         (ErrorBody "Invalid request payload" (Error err)), w)
  | Ok req =>
      match service.CreatePayment req w with
      | (Err err, w) =>
          (mkHTTP StatusInternalServerError
             (ErrorBody "Payment processing failed" (Error err)), w)
      | (Ok resp, w) =>
          let statusCode :=
            if String.eqb (resp_Status resp) StatusFailed
            then StatusOK else StatusCreated in
          (mkHTTP statusCode (PaymentBody resp), w)
      end
  end.

Definition GetPayment (paymentID : string) (w : World) : Response * World :=
  match service.GetPayment paymentID w with
  | (Err err, w) =>
      (mkHTTP StatusNotFound (ErrorBody "Payment not found" (Error err)), w)
  | (Ok resp, w) => (mkHTTP StatusOK (PaymentBody resp), w)
  end.

End handler.

(* ================================================================== *)
(** ** Sample worlds and requests *)

Definition quiet (_ : nat) : db_event := Quiet.

Definition world0 (env : nat -> db_event) (gw : nat -> bool) : World :=
  {| rows := []; db_calls := 0; db_env := env; attempts := 0; gateway := gw;
     uuid_calls := 0; uuid_rand := fun n => (1000 + N.of_nat n)%N;
     clock := 1700000000; sleeps := [] |}.

Definition always_ok (_ : nat) : bool := false.
Definition always_fail (_ : nat) : bool := true.

Definition req_k1 : CreatePaymentRequest :=
  {| req_IdempotencyKey := "k1"; req_Amount := 10000;
     req_Currency := "INR"; req_UserID := "u1" |}.

Definition req_k1_other : CreatePaymentRequest :=
  {| req_IdempotencyKey := "k1"; req_Amount := 42;
     req_Currency := "USD"; req_UserID := "u2" |}.

(** The world after a first submission of [req_k1] that succeeded, and the
    id that submission was given. *)
Definition world_after_k1 : World :=
  snd (CreatePayment req_k1 (world0 quiet always_ok)).

Definition id_k1 : UUID := uuid_stamp 1000.

Definition stored_k1 : Payment :=
  {| ID := id_k1; UserID := "u1"; Amount := 10000; Currency := "INR";
     Status := StatusSuccess; IdempotencyKey := "k1"; RetryCount := 1;
     FailureReason := ""; CreatedAt := 1700000000; UpdatedAt := 1750000000 |}.

(** A record as it is stored by Create, before any attempt. *)
Definition pending_k1 : Payment :=
  {| ID := id_k1; UserID := "u1"; Amount := 10000; Currency := "INR";
     Status := StatusInitiated; IdempotencyKey := "k1"; RetryCount := 0;
     FailureReason := ""; CreatedAt := 1700000000; UpdatedAt := 1700000000 |}.

(** The gateway fails on the first [n] attempts and succeeds afterwards. *)
Definition fails_first (n : nat) (k : nat) : bool := Nat.ltb k n.

(** A record that a concurrent request stores under key k1. *)
Definition rival : Payment :=
  {| ID := 77%N; UserID := "u9"; Amount := 500; Currency := "USD";
     Status := StatusInitiated; IdempotencyKey := "k1"; RetryCount := 0;
     FailureReason := ""; CreatedAt := 1600000000; UpdatedAt := 1600000000 |}.

(** The rival's INSERT commits between the lookup and the INSERT of the
    submission. *)
Definition env_race (n : nat) : db_event :=
  match n with
  | 1%nat => Racing rival
  | _ => Quiet
  end.

(** The connection is lost at the [k]-th statement. *)
Definition env_fault_at (k : nat) (n : nat) : db_event :=
  if Nat.eqb n k then Fault "connection reset by peer" else Quiet.

(* ================================================================== *)
(** ** Vocabulary of the properties *)

(** The five rules of the request, as propositions. *)
Definition valid (req : CreatePaymentRequest) : Prop :=
  MinAmount <= req_Amount req /\
  req_Amount req <= MaxAmount /\
  String.length (req_Currency req) = 3%nat /\
  req_IdempotencyKey req <> "" /\
  req_UserID req <> "".

(** One change of the table while the record with id [i] and key [k] is
    being processed: some request inserts a row that respects the
    constraints, or the record itself is overwritten. *)
Inductive step_rows (i : UUID) (k : string)
  : list Payment -> list Payment -> Prop :=
| step_insert (tbl : list Payment) (q : Payment) :
    violated q tbl = None -> step_rows i k tbl (tbl ++ [q])%list
| step_save (tbl : list Payment) (p : Payment) :
    ID p = i -> IdempotencyKey p = k ->
    step_rows i k tbl (overwrite p tbl).

Inductive evolves (i : UUID) (k : string)
  : list Payment -> list Payment -> Prop :=
| ev_refl (tbl : list Payment) : evolves i k tbl tbl
| ev_step (t1 t2 t3 : list Payment) :
    evolves i k t1 t2 -> step_rows i k t2 t3 -> evolves i k t1 t3.

(** The row found under key [k] keeps the id [i]. *)
Definition holds_record (i : UUID) (k : string) (tbl : list Payment) : Prop :=
  exists p, find (same_key k) tbl = Some p /\ ID p = i.

(** What a statement leaves alone in the world. *)
Record db_frame (w w' : World) : Prop := mk_db_frame {
  frame_calls : db_calls w' = S (db_calls w);
  frame_env : db_env w' = db_env w;
  frame_attempts : attempts w' = attempts w;
  frame_gateway : gateway w' = gateway w;
  frame_clock : clock w' = clock w;
  frame_sleeps : sleeps w' = sleeps w
}.

(** The fields of a record that the store never assigns. *)
Record same_fields (p p' : Payment) : Prop := mk_same_fields {
  sf_UserID : UserID p' = UserID p;
  sf_Amount : Amount p' = Amount p;
  sf_Currency : Currency p' = Currency p;
  sf_Status : Status p' = Status p;
  sf_IdempotencyKey : IdempotencyKey p' = IdempotencyKey p;
  sf_RetryCount : RetryCount p' = RetryCount p;
  sf_FailureReason : FailureReason p' = FailureReason p
}.

(** The record [CreatePayment] builds from a request before it is stored. *)
Definition fresh (req : CreatePaymentRequest) : Payment :=
  {| ID := uuid_Nil;
     UserID := req_UserID req;
     Amount := req_Amount req;
     Currency := req_Currency req;
     Status := StatusInitiated;
     IdempotencyKey := req_IdempotencyKey req;
     RetryCount := 0;
     FailureReason := "";
     CreatedAt := 0;
     UpdatedAt := 0 |}.

(** The fields of a record that processing never assigns. *)
Record same_identity (p p' : Payment) : Prop := mk_same_identity {
  si_ID : ID p' = ID p;
  si_UserID : UserID p' = UserID p;
  si_Amount : Amount p' = Amount p;
  si_Currency : Currency p' = Currency p;
  si_IdempotencyKey : IdempotencyKey p' = IdempotencyKey p;
  si_CreatedAt : CreatedAt p' = CreatedAt p
}.

(** The operations of [PaymentService], and runs of them. *)
Inductive op : Type :=
| Submit (req : CreatePaymentRequest)
| Fetch (paymentID : string).

Definition exec (o : op) (w : World) : World :=
  match o with
  | Submit req => snd (CreatePayment req w)
  | Fetch paymentID => snd (GetPayment paymentID w)
  end.

Definition run (ops : list op) (w : World) : World :=
  fold_left (fun w o => exec o w) ops w.

Definition terminal (s : PaymentStatus) : Prop :=
  s = StatusSuccess \/ s = StatusFailed.

(** The base delay of the backoff schedule, 100 ms. *)
Definition baseDelay : Z := 100 * Millisecond.

(** The delays [1 * baseDelay, ..., n * baseDelay]. *)
Definition backoffs (n : nat) : list Z :=
  map (fun a => Z.of_nat a * baseDelay) (seq 1 n).

(** The constraints of table payments: primary key and unique index. *)
Definition table_ok (tbl : list Payment) : Prop :=
  NoDup (map ID tbl) /\ NoDup (map IdempotencyKey tbl).

(** The table after inserts only. *)
Inductive grows : list Payment -> list Payment -> Prop :=
| grows_refl (tbl : list Payment) : grows tbl tbl
| grows_insert (t1 t2 : list Payment) (q : Payment) :
    grows t1 t2 -> violated q t2 = None -> grows t1 (t2 ++ [q])%list.

(** While the record with id [i] and key [k] is processed, it is in the
    table and every row with its id has its key. *)
Definition owns (i : UUID) (k : string) (tbl : list Payment) : Prop :=
  existsb (same_id i) tbl = true /\
  forall q, In q tbl -> ID q = i -> IdempotencyKey q = k.

(** Ids that fit the sixteen bytes of a UUID. *)
Definition is_uuid (u : UUID) : Prop := (u < 2 ^ 128)%N.


(** The first attempt, counted from 0, at which the gateway accepts, among
    the next [n]. *)
Fixpoint first_ok (gw : nat -> bool) (from n : nat) : option nat :=
  match n with
  | O => None
  | S n => if gw from then
             match first_ok gw (S from) n with
             | Some k => Some (S k)
             | None => None
             end
           else Some O
  end.

(** A world whose table holds [pending_k1], about to be processed. *)
Definition world_pending (gw : nat -> bool) : World :=
  set_rows [pending_k1] (world0 quiet gw).

(** [pending_k1] before it has an id and timestamps. *)
Definition unsaved_k1 : Payment := fresh req_k1.

(** The world in which all three attempts for [req_k1] have failed. *)
Definition world_after_k1_failed : World :=
  snd (CreatePayment req_k1 (world0 quiet always_fail)).

(** The world in which the payment for [req_k1] went through but the
    update statement was lost. *)
Definition world_after_k1_lost : World :=
  snd (CreatePayment req_k1 (world0 (env_fault_at 2) always_ok)).

(* ================================================================== *)
(** ** Validation *)


Lemma validate_None_iff (req : CreatePaymentRequest) :
  validatePaymentRequest req = None <-> valid req.
Proof.
  unfold validatePaymentRequest, valid.
  destruct (Z.ltb_spec (req_Amount req) MinAmount).
  { split; [discriminate | lia]. }
  rewrite Z.gtb_ltb.
  destruct (Z.ltb_spec MaxAmount (req_Amount req)).
  { split; [discriminate | lia]. }
  destruct (Nat.eqb_spec (String.length (req_Currency req)) 3); simpl.
  2:{ split; [discriminate | tauto]. }
  destruct (String.eqb_spec (req_IdempotencyKey req) "").
  { split; [discriminate | tauto]. }
  destruct (String.eqb_spec (req_UserID req) "").
  { split; [discriminate | tauto]. }
  tauto.
Qed.

Lemma validate_Some_iff (req : CreatePaymentRequest) :
  (exists e, validatePaymentRequest req = Some e) <-> ~ valid req.
Proof.
  rewrite <- validate_None_iff.
  destruct (validatePaymentRequest req) as [e|].
  - split; [discriminate | eauto].
  - split; [intros [e He]; discriminate | congruence].
Qed.

(** C3. Validation is a function of the request alone. It answers "valid"
    exactly when the amount lies in [MinAmount, MaxAmount] = [1, 1000000],
    the currency has length 3, and the idempotency key and the user id are
    non-empty; otherwise it reports the first rule violated, in that order.
    Requests with amount 1 and with amount 1000000 pass. *)
Theorem C3_validation_rules (req : CreatePaymentRequest) :
  MinAmount = 1 /\ MaxAmount = 1000000 /\
  (validatePaymentRequest req = None <-> valid req) /\
  (req_Amount req < MinAmount ->
   validatePaymentRequest req =
     Some (errorString "amount must be at least 1")) /\
  (MinAmount <= req_Amount req -> MaxAmount < req_Amount req ->
   validatePaymentRequest req =
     Some (errorString "amount cannot exceed 1000000")) /\
  (MinAmount <= req_Amount req <= MaxAmount ->
   String.length (req_Currency req) <> 3%nat ->
   validatePaymentRequest req =
     Some (errorString "currency must be a 3-letter ISO code")) /\
  (MinAmount <= req_Amount req <= MaxAmount ->
   String.length (req_Currency req) = 3%nat ->
   req_IdempotencyKey req = "" ->
   validatePaymentRequest req =
     Some (errorString "idempotency key is required")) /\
  (MinAmount <= req_Amount req <= MaxAmount ->
   String.length (req_Currency req) = 3%nat ->
   req_IdempotencyKey req <> "" ->
   req_UserID req = "" ->
   validatePaymentRequest req =
     Some (errorString "user ID is required")) /\
  (String.length (req_Currency req) = 3%nat ->
   req_IdempotencyKey req <> "" ->
   req_UserID req <> "" ->
   validatePaymentRequest
     (mkRequest (req_IdempotencyKey req) MinAmount (req_Currency req)
        (req_UserID req)) = None /\
   validatePaymentRequest
     (mkRequest (req_IdempotencyKey req) MaxAmount (req_Currency req)
        (req_UserID req)) = None).
Proof.
  split; [reflexivity|]. split; [reflexivity|].
  split; [apply validate_None_iff|].
  unfold validatePaymentRequest.
  rewrite Z.gtb_ltb.
  repeat split.
  - intros H. destruct (Z.ltb_spec (req_Amount req) MinAmount); [reflexivity | lia].
  - intros H1 H2.
    destruct (Z.ltb_spec (req_Amount req) MinAmount); [lia|].
    destruct (Z.ltb_spec MaxAmount (req_Amount req)); [reflexivity | lia].
  - intros H1 H2.
    destruct (Z.ltb_spec (req_Amount req) MinAmount); [lia|].
    destruct (Z.ltb_spec MaxAmount (req_Amount req)); [lia|].
    destruct (Nat.eqb_spec (String.length (req_Currency req)) 3);
      [contradiction | reflexivity].
  - intros H1 H2 H3.
    destruct (Z.ltb_spec (req_Amount req) MinAmount); [lia|].
    destruct (Z.ltb_spec MaxAmount (req_Amount req)); [lia|].
    rewrite H2, H3. reflexivity.
  - intros H1 H2 H3 H4.
    destruct (Z.ltb_spec (req_Amount req) MinAmount); [lia|].
    destruct (Z.ltb_spec MaxAmount (req_Amount req)); [lia|].
    rewrite H2, H4. simpl.
    destruct (String.eqb_spec (req_IdempotencyKey req) "");
      [contradiction | reflexivity].
  - apply validate_None_iff. unfold valid, MinAmount, MaxAmount. simpl.
    repeat split; auto; lia.
  - apply validate_None_iff. unfold valid, MinAmount, MaxAmount. simpl.
    repeat split; auto; lia.
Qed.

Lemma C3_validation_rules_witness :
  validatePaymentRequest req_k1 = None /\
  validatePaymentRequest (mkRequest "k1" 0 "INR" "u1") =
    Some (errorString "amount must be at least 1") /\
  validatePaymentRequest (mkRequest "" 1000001 "INRX" "") =
    Some (errorString "amount cannot exceed 1000000").
Proof.
  split; [| split].
  - apply (proj1 (proj2 (proj2 (C3_validation_rules req_k1)))).
    unfold valid, MinAmount, MaxAmount; simpl.
    repeat split; try lia; discriminate.
  - apply (C3_validation_rules (mkRequest "k1" 0 "INR" "u1")).
    unfold MinAmount; simpl; lia.
  - apply (C3_validation_rules (mkRequest "" 1000001 "INRX" "")).
    + unfold MinAmount; simpl; lia.
    + unfold MaxAmount; simpl; lia.
Defined.

(* ================================================================== *)
(** ** How the table changes *)

Section Lists.
Context {A : Type} (f : A -> bool).

Lemma find_some_existsb (l : list A) (x : A) :
  find f l = Some x -> existsb f l = true.
Proof.
  induction l as [|a l IH]; simpl; [discriminate|].
  destruct (f a); auto.
Qed.

Lemma existsb_false_find (l : list A) :
  existsb f l = false -> find f l = None.
Proof.
  induction l as [|a l IH]; simpl; [reflexivity|].
  destruct (f a); simpl; [discriminate | exact IH].
Qed.

Lemma find_app_some (l l' : list A) (x : A) :
  find f l = Some x -> find f (l ++ l')%list = Some x.
Proof.
  induction l as [|a l IH]; simpl; [discriminate|].
  destruct (f a); auto.
Qed.

Lemma find_app_none (l l' : list A) :
  find f l = None -> find f (l ++ l')%list = find f l'.
Proof.
  induction l as [|a l IH]; simpl; [reflexivity|].
  destruct (f a); [discriminate | exact IH].
Qed.
End Lists.

Lemma violated_None (p : Payment) (tbl : list Payment) :
  violated p tbl = None ->
  existsb (same_id (ID p)) tbl = false /\
  existsb (same_key (IdempotencyKey p)) tbl = false.
Proof.
  unfold violated.
  destruct (existsb (same_id (ID p)) tbl); [discriminate|].
  destruct (existsb (same_key (IdempotencyKey p)) tbl); [discriminate|].
  auto.
Qed.

Lemma same_id_true (i : UUID) (q : Payment) : same_id i q = true <-> ID q = i.
Proof. unfold same_id. apply N.eqb_eq. Qed.

Lemma same_id_false (i : UUID) (q : Payment) :
  same_id i q = false <-> ID q <> i.
Proof. unfold same_id. apply N.eqb_neq. Qed.

Lemma same_key_true (k : string) (q : Payment) :
  same_key k q = true <-> IdempotencyKey q = k.
Proof. unfold same_key. apply String.eqb_eq. Qed.

Lemma find_id_overwrite_other (j : UUID) (p : Payment) (tbl : list Payment) :
  ID p <> j ->
  find (same_id j) (overwrite p tbl) = find (same_id j) tbl.
Proof.
  intros Hne. unfold overwrite.
  induction tbl as [|a tbl IH]; simpl; [reflexivity|].
  destruct (same_id (ID p) a) eqn:Ha.
  - apply same_id_true in Ha.
    assert (Hp : same_id j p = false) by (apply same_id_false; exact Hne).
    assert (Hq : same_id j a = false) by (apply same_id_false; congruence).
    rewrite Hp, Hq. exact IH.
  - destruct (same_id j a); [reflexivity | exact IH].
Qed.

Lemma find_id_overwrite_same (p : Payment) (tbl : list Payment) :
  existsb (same_id (ID p)) tbl = true ->
  find (same_id (ID p)) (overwrite p tbl) = Some p.
Proof.
  unfold overwrite.
  induction tbl as [|a tbl IH]; simpl; [discriminate|].
  destruct (same_id (ID p) a) eqn:Ha; simpl.
  - intros _. assert (Hp : same_id (ID p) p = true)
      by (apply same_id_true; reflexivity).
    rewrite Hp. reflexivity.
  - rewrite Ha. exact IH.
Qed.

Lemma find_key_overwrite (k : string) (p q : Payment) (tbl : list Payment) :
  find (same_key k) tbl = Some q -> ID q = ID p -> IdempotencyKey p = k ->
  find (same_key k) (overwrite p tbl) = Some p.
Proof.
  intros Hf Hid Hk. unfold overwrite.
  assert (Hp : same_key k p = true) by (apply same_key_true; exact Hk).
  induction tbl as [|a tbl IH]; simpl in *; [discriminate|].
  destruct (same_key k a) eqn:Hka.
  - injection Hf as ->.
    assert (Ha : same_id (ID p) q = true) by (apply same_id_true; exact Hid).
    rewrite Ha, Hp. reflexivity.
  - destruct (same_id (ID p) a).
    + rewrite Hp. reflexivity.
    + rewrite Hka. apply IH. exact Hf.
Qed.


Lemma evolves_trans (i : UUID) (k : string) (t1 t2 t3 : list Payment) :
  evolves i k t1 t2 -> evolves i k t2 t3 -> evolves i k t1 t3.
Proof.
  intros H12 H23. induction H23; [exact H12|].
  eapply ev_step; [apply IHevolves; exact H12 | eassumption].
Qed.

Lemma evolves_one (i : UUID) (k : string) (t1 t2 : list Payment) :
  step_rows i k t1 t2 -> evolves i k t1 t2.
Proof. intros H. eapply ev_step; [apply ev_refl | exact H]. Qed.

(** Rows with another id are not touched. *)
Lemma evolves_keeps_others (i : UUID) (k : string) (t t' : list Payment)
    (j : UUID) (p : Payment) :
  evolves i k t t' -> i <> j ->
  find (same_id j) t = Some p -> find (same_id j) t' = Some p.
Proof.
  induction 1 as [|t1 t2 t3 _ IH Hs]; [auto|].
  intros Hne Hj. specialize (IH Hne Hj). destruct Hs as [tbl q _|tbl q Hq _].
  - apply find_app_some. exact IH.
  - rewrite find_id_overwrite_other; [exact IH | congruence].
Qed.


Lemma evolves_holds_record (i : UUID) (k : string) (t t' : list Payment) :
  evolves i k t t' -> holds_record i k t -> holds_record i k t'.
Proof.
  induction 1 as [|t1 t2 t3 _ IH Hs]; [auto|].
  intros Hh. destruct (IH Hh) as [p [Hf Hid]].
  destruct Hs as [tbl q _|tbl q Hq Hk].
  - exists p. split; [apply find_app_some; exact Hf | exact Hid].
  - exists q. split; [|exact Hq].
    eapply find_key_overwrite; [exact Hf | congruence | exact Hk].
Qed.

(* ================================================================== *)
(** ** What each statement does *)

Lemma arrive_inv (w : World) (o : option string) (w' : World) :
  arrive w = (o, w') ->
  db_frame w w' /\ uuid_calls w' = uuid_calls w /\
  (forall i k, evolves i k (rows w) (rows w')) /\
  (db_env w (db_calls w) = Quiet -> o = None /\ rows w' = rows w) /\
  (forall msg, db_env w (db_calls w) = Fault msg ->
               o = Some msg /\ rows w' = rows w) /\
  (forall msg, o = Some msg ->
               db_env w (db_calls w) = Fault msg /\ rows w' = rows w).
Proof.
  unfold arrive. intros H.
  destruct (db_env w (db_calls w)) as [|msg|q] eqn:He.
  - injection H as <- <-. simpl.
    repeat split; intros; try apply ev_refl; congruence.
  - injection H as <- <-. simpl.
    repeat split; intros; try apply ev_refl; congruence.
  - destruct (violated q (rows w)) eqn:Hv; injection H as <- <-; simpl.
    + repeat split; intros; try apply ev_refl; congruence.
    + repeat split; intros; try congruence.
      apply evolves_one, step_insert, Hv.
Qed.

Lemma arrive_appends (w : World) (o : option string) (w' : World) :
  arrive w = (o, w') -> exists l, rows w' = (rows w ++ l)%list.
Proof.
  unfold arrive. intros H.
  destruct (db_env w (db_calls w)) as [|msg|q].
  - injection H as <- <-. exists []. simpl. rewrite app_nil_r. reflexivity.
  - injection H as <- <-. exists []. simpl. rewrite app_nil_r. reflexivity.
  - destruct (violated q (rows w)); injection H as <- <-; simpl.
    + exists []. rewrite app_nil_r. reflexivity.
    + exists [q]. reflexivity.
Qed.

Lemma uuid_stamp_not_Nil (r : N) : uuid_stamp r <> uuid_Nil.
Proof.
  unfold uuid_stamp, uuid_Nil. intros H.
  apply (f_equal (fun x => N.testbit x 63)) in H.
  rewrite N.setbit_eq in H. rewrite N.bits_0 in H. discriminate.
Qed.

Lemma GetByIdempotencyKey_eq (key : string) (w : World) :
  repository.GetByIdempotencyKey key w =
  match arrive w with
  | (Some msg, w1) => (Err (ErrDriver msg), w1)
  | (None, w1) => (Ok (find (same_key key) (rows w1)), w1)
  end.
Proof.
  unfold repository.GetByIdempotencyKey, gorm_First.
  destruct (arrive w) as [[msg|] w1]; [reflexivity|].
  destruct (find (same_key key) (rows w1)); reflexivity.
Qed.

Lemma GetByID_eq (id : UUID) (w : World) :
  repository.GetByID id w =
  match arrive w with
  | (Some msg, w1) => (Err (ErrDriver msg), w1)
  | (None, w1) =>
      match find (same_id id) (rows w1) with
      | Some p => (Ok p, w1)
      | None => (Err (errorString "payment not found"), w1)
      end
  end.
Proof.
  unfold repository.GetByID, gorm_First.
  destruct (arrive w) as [[msg|] w1]; [reflexivity|].
  destruct (find (same_id id) (rows w1)); reflexivity.
Qed.

(** Creating a record that has no id yet. *)
Lemma Create_inv (p : Payment) (w : World) (e : option error) (p' : Payment)
    (w' : World) :
  repository.Create p w = (e, p', w') -> ID p = uuid_Nil ->
  db_frame w w' /\ same_fields p p' /\ ID p' <> uuid_Nil /\
  (CreatedAt p = 0 -> CreatedAt p' = clock w) /\
  match e with
  | None =>
      exists t1, (forall i k, evolves i k (rows w) t1) /\
                 violated p' t1 = None /\ rows w' = (t1 ++ [p'])%list
  | Some _ => forall i k, evolves i k (rows w) (rows w')
  end.
Proof.
  unfold repository.Create, gorm_Create, BeforeCreate, uuid_New.
  intros H Hnil. rewrite Hnil in H. simpl in H.
  set (w0 := set_uuid_calls (S (uuid_calls w)) w) in *.
  destruct (arrive w0) as [o w1] eqn:Ha.
  match type of H with
  | context [violated ?x (rows w1)] => set (p2 := x) in *
  end.
  assert (Hsf : same_fields p p2 /\
                ID p2 = uuid_stamp (uuid_rand w (uuid_calls w)) /\
                (CreatedAt p = 0 -> CreatedAt p2 = clock w)).
  { subst p2.
    destruct (CreatedAt p =? 0) eqn:Hc; simpl;
      destruct (UpdatedAt p =? 0) eqn:Hu; simpl;
      (split; [constructor; reflexivity | split; [reflexivity|]]);
      intros H0; try reflexivity; rewrite H0 in Hc; discriminate. }
  destruct Hsf as [Hsf [Hid Hca]].
  apply arrive_inv in Ha. destruct Ha as [[F1 F2 F3 F4 F5 F6] [_ [Hev _]]].
  assert (Hfr : forall w2, db_calls w2 = db_calls w1 -> db_env w2 = db_env w1 ->
                  attempts w2 = attempts w1 -> gateway w2 = gateway w1 ->
                  clock w2 = clock w1 -> sleeps w2 = sleeps w1 ->
                  db_frame w w2).
  { intros w2 G1 G2 G3 G4 G5 G6.
    constructor; [rewrite G1, F1|rewrite G2, F2|rewrite G3, F3|rewrite G4, F4
                 |rewrite G5, F5|rewrite G6, F6]; reflexivity. }
  assert (Hnn : ID p2 <> uuid_Nil) by (rewrite Hid; apply uuid_stamp_not_Nil).
  destruct o as [msg|].
  - injection H as <- <- <-.
    split; [auto|]. split; [exact Hsf|]. split; [exact Hnn|].
    split; [exact Hca | exact Hev].
  - destruct (violated p2 (rows w1)) eqn:Hv; injection H as <- <- <-.
    + split; [auto|]. split; [exact Hsf|]. split; [exact Hnn|].
      split; [exact Hca | exact Hev].
    + split; [apply Hfr; reflexivity|]. split; [exact Hsf|].
      split; [exact Hnn|]. split; [exact Hca|].
      exists (rows w1). split; [exact Hev|]. split; [exact Hv | reflexivity].
Qed.

(** Saving a record that has an id. *)
Lemma Update_inv (p : Payment) (w : World) (e : option error) (p' : Payment)
    (w' : World) :
  repository.Update p w = (e, p', w') -> ID p <> uuid_Nil ->
  p' = with_UpdatedAt (clock w) p /\ db_frame w w' /\
  evolves (ID p) (IdempotencyKey p) (rows w) (rows w') /\
  (forall msg, db_env w (db_calls w) = Fault msg -> rows w' = rows w) /\
  (db_env w (db_calls w) = Quiet ->
   existsb (same_id (ID p)) (rows w) = true ->
   rows w' = overwrite p' (rows w)).
Proof.
  unfold repository.Update, gorm_Save. intros H Hnn.
  destruct (N.eqb_spec (ID p) uuid_Nil) as [Heq|_]; [contradiction|].
  destruct (arrive w) as [o w1] eqn:Ha.
  apply arrive_inv in Ha.
  destruct Ha as [[F1 F2 F3 F4 F5 F6] [_ [Hev [Hq [Hf Hs]]]]].
  assert (Hfr : forall w2, db_calls w2 = db_calls w1 -> db_env w2 = db_env w1 ->
                  attempts w2 = attempts w1 -> gateway w2 = gateway w1 ->
                  clock w2 = clock w1 -> sleeps w2 = sleeps w1 ->
                  db_frame w w2).
  { intros w2 G1 G2 G3 G4 G5 G6.
    constructor; [rewrite G1, F1|rewrite G2, F2|rewrite G3, F3|rewrite G4, F4
                 |rewrite G5, F5|rewrite G6, F6]; reflexivity. }
  set (p1 := with_UpdatedAt (clock w) p) in *.
  assert (Hid : ID p1 = ID p) by reflexivity.
  assert (Hk : IdempotencyKey p1 = IdempotencyKey p) by reflexivity.
  destruct o as [msg|].
  - injection H as <- <- <-.
    destruct (Hs msg eq_refl) as [Hfault Hrows].
    split; [reflexivity|]. split; [auto|]. split; [apply Hev|].
    split; [intros; exact Hrows|].
    intros HQ. rewrite HQ in Hfault. discriminate.
  - destruct (existsb (same_id (ID p1)) (rows w1)) eqn:Hex.
    + injection H as <- <- <-.
      split; [reflexivity|]. split; [apply Hfr; reflexivity|].
      split; [|split].
      * eapply ev_step; [apply Hev|]. apply step_save; assumption.
      * intros msg Hm. destruct (Hf msg Hm). discriminate.
      * intros HQ _. destruct (Hq HQ) as [_ Hr]. simpl. rewrite Hr.
        reflexivity.
    + assert (Habsurd : db_env w (db_calls w) = Quiet ->
                        existsb (same_id (ID p)) (rows w) = true -> False).
      { intros HQ Hin. destruct (Hq HQ) as [_ Hr].
        rewrite Hr, Hid in Hex. congruence. }
      destruct (violated p1 (rows w1)) eqn:Hv; injection H as <- <- <-.
      * split; [reflexivity|]. split; [auto|]. split; [apply Hev|].
        split; [|intros HQ Hin; destruct (Habsurd HQ Hin)].
        intros msg Hm. destruct (Hf msg Hm). discriminate.
      * split; [reflexivity|]. split; [apply Hfr; reflexivity|].
        split; [|split; [|intros HQ Hin; destruct (Habsurd HQ Hin)]].
        -- eapply ev_step; [apply Hev|]. apply step_insert, Hv.
        -- intros msg Hm. destruct (Hf msg Hm). discriminate.
Qed.

(* ================================================================== *)
(** ** The retry loop *)

Lemma Update_frame (p : Payment) (w : World) :
  db_frame w (snd (repository.Update p w)).
Proof.
  destruct (repository.Update p w) as [[e p'] w'] eqn:H. simpl.
  destruct (N.eqb_spec (ID p) uuid_Nil) as [Hnil|Hnn].
  - unfold repository.Update, gorm_Save in H.
    rewrite (proj2 (N.eqb_eq _ _) Hnil) in H.
    apply (Create_inv p w e p' w' H Hnil).
  - apply (Update_inv p w e p' w' H Hnn).
Qed.

Lemma loop_fail_step (n : nat) (i : Z) (p : Payment) (l : option error)
    (w : World) :
  gateway w (attempts w) = true ->
  retry_loop (S n) i p l w =
  retry_loop n (i + 1) (with_RetryCount (i + 1) p)
    (Some (errorString "payment gateway timeout"))
    (if i <? MaxRetries - 1
     then time_Sleep (backoff i) (set_attempts (S (attempts w)) w)
     else set_attempts (S (attempts w)) w).
Proof.
  intros H. simpl. unfold simulatePaymentProcessing. rewrite H. reflexivity.
Qed.

Lemma loop_success_step (n : nat) (i : Z) (p : Payment) (l : option error)
    (w : World) :
  gateway w (attempts w) = false ->
  retry_loop (S n) i p l w =
  let '(_, p', w') :=
    repository.Update (with_Status StatusSuccess (with_RetryCount (i + 1) p))
      (time_Sleep (50 * Millisecond) (set_attempts (S (attempts w)) w)) in
  (None, p', w').
Proof.
  intros H. simpl. unfold simulatePaymentProcessing. rewrite H. reflexivity.
Qed.

(** What the loop can do to the record and to the table, whatever the
    gateway answers. *)
Lemma retry_loop_inv (n : nat) :
  forall (i : Z) (p : Payment) (l : option error) (w : World)
         (e : option error) (p' : Payment) (w' : World),
  retry_loop n i p l w = (e, p', w') -> ID p <> uuid_Nil ->
  same_identity p p' /\
  db_env w' = db_env w /\ gateway w' = gateway w /\
  evolves (ID p) (IdempotencyKey p) (rows w) (rows w') /\
  match e with
  | None => Status p' = StatusSuccess /\ db_calls w' = S (db_calls w)
  | Some _ =>
      Status p' = Status p /\ rows w' = rows w /\ db_calls w' = db_calls w
  end.
Proof.
  induction n as [|n IH]; intros i p l w e p' w' H Hnn.
  - simpl in H. injection H as <- <- <-.
    split; [constructor; reflexivity|].
    split; [reflexivity|]. split; [reflexivity|].
    split; [apply ev_refl|]. auto.
  - destruct (gateway w (attempts w)) eqn:Hg.
    + rewrite (loop_fail_step n i p l w Hg) in H.
      apply IH in H; [|exact Hnn].
      destruct H as [[S1 S2 S3 S4 S5 S6] [He [Hgw [Hev Hres]]]].
      assert (Hw : forall A (f : World -> A),
                 (forall d v, f (time_Sleep d v) = f v) ->
                 f (if i <? MaxRetries - 1
                    then time_Sleep (backoff i) (set_attempts (S (attempts w)) w)
                    else set_attempts (S (attempts w)) w)
                 = f (set_attempts (S (attempts w)) w)).
      { intros A f Hf. destruct (i <? MaxRetries - 1); [apply Hf | reflexivity]. }
      rewrite (Hw _ db_env) in He by reflexivity.
      rewrite (Hw _ gateway) in Hgw by reflexivity.
      rewrite (Hw _ rows) in Hev by reflexivity.
      rewrite (Hw _ rows) in Hres by reflexivity.
      rewrite (Hw _ db_calls) in Hres by reflexivity.
      split; [constructor; assumption|].
      split; [exact He|]. split; [exact Hgw|]. split; [exact Hev|].
      destruct e; exact Hres.
    + rewrite (loop_success_step n i p l w Hg) in H.
      set (q := with_Status StatusSuccess (with_RetryCount (i + 1) p)) in *.
      set (v := time_Sleep (50 * Millisecond) (set_attempts (S (attempts w)) w))
        in *.
      destruct (repository.Update q v) as [[e1 q1] v1] eqn:Hu.
      injection H as <- <- <-.
      apply Update_inv in Hu; [|exact Hnn].
      destruct Hu as [-> [[F1 F2 F3 F4 F5 F6] [Hev _]]].
      split; [constructor; reflexivity|].
      split; [exact F2|]. split; [exact F4|]. split; [exact Hev|].
      split; [reflexivity | exact F1].
Qed.

(* ================================================================== *)
(** ** The paths through CreatePayment *)

Lemma CreatePayment_invalid (req : CreatePaymentRequest) (w : World)
    (e : error) :
  validatePaymentRequest req = Some e -> CreatePayment req w = (Err e, w).
Proof. intros H. unfold CreatePayment. rewrite H. reflexivity. Qed.

Lemma CreatePayment_lookup_failed (req : CreatePaymentRequest) (w w1 : World)
    (e : error) :
  valid req ->
  repository.GetByIdempotencyKey (req_IdempotencyKey req) w = (Err e, w1) ->
  CreatePayment req w = (Err e, w1).
Proof.
  intros Hv H. unfold CreatePayment.
  rewrite (proj2 (validate_None_iff req) Hv), H. reflexivity.
Qed.

Lemma CreatePayment_existing (req : CreatePaymentRequest) (w w1 : World)
    (p : Payment) :
  valid req ->
  repository.GetByIdempotencyKey (req_IdempotencyKey req) w
    = (Ok (Some p), w1) ->
  CreatePayment req w = (Ok (toPaymentResponse p), w1).
Proof.
  intros Hv H. unfold CreatePayment.
  rewrite (proj2 (validate_None_iff req) Hv), H. reflexivity.
Qed.

Lemma CreatePayment_create_failed (req : CreatePaymentRequest)
    (w w1 w2 : World) (e : error) (p1 : Payment) :
  valid req ->
  repository.GetByIdempotencyKey (req_IdempotencyKey req) w = (Ok None, w1) ->
  repository.Create (fresh req) w1 = (Some e, p1, w2) ->
  CreatePayment req w = (Err e, w2).
Proof.
  intros Hv H1 H2. unfold CreatePayment.
  rewrite (proj2 (validate_None_iff req) Hv), H1.
  change (repository.Create _ w1) with (repository.Create (fresh req) w1).
  rewrite H2. reflexivity.
Qed.

Lemma CreatePayment_created (req : CreatePaymentRequest) (w w1 w2 : World)
    (p1 : Payment) :
  valid req ->
  repository.GetByIdempotencyKey (req_IdempotencyKey req) w = (Ok None, w1) ->
  repository.Create (fresh req) w1 = (None, p1, w2) ->
  CreatePayment req w =
  match processPaymentWithRetry p1 w2 with
  | (Some err, p, w3) =>
      let '(_, p, w4) :=
        repository.Update
          (with_FailureReason (Error err) (with_Status StatusFailed p)) w3 in
      (Ok (toPaymentResponse p), w4)
  | (None, p, w3) => (Ok (toPaymentResponse p), w3)
  end.
Proof.
  intros Hv H1 H2. unfold CreatePayment.
  rewrite (proj2 (validate_None_iff req) Hv), H1.
  change (repository.Create _ w1) with (repository.Create (fresh req) w1).
  rewrite H2. reflexivity.
Qed.

(** Once the record is stored, the submission ends with a payment outcome
    whose status is terminal, after exactly one more statement, and the
    table has only moved by inserts and by overwrites of that record. *)
Lemma created_outcome (req : CreatePaymentRequest) (w w1 w2 : World)
    (p1 : Payment) :
  valid req ->
  repository.GetByIdempotencyKey (req_IdempotencyKey req) w = (Ok None, w1) ->
  repository.Create (fresh req) w1 = (None, p1, w2) ->
  exists p w',
    CreatePayment req w = (Ok (toPaymentResponse p), w') /\
    same_identity p1 p /\ terminal (Status p) /\
    db_calls w' = S (db_calls w2) /\
    evolves (ID p1) (req_IdempotencyKey req) (rows w2) (rows w').
Proof.
  intros Hv H1 H2.
  rewrite (CreatePayment_created req w w1 w2 p1 Hv H1 H2).
  destruct (Create_inv _ _ _ _ _ H2 eq_refl) as [_ [Hsf [Hnn _]]].
  assert (Hk : IdempotencyKey p1 = req_IdempotencyKey req)
    by (apply (sf_IdempotencyKey _ _ Hsf)).
  unfold processPaymentWithRetry.
  destruct (retry_loop (Z.to_nat MaxRetries) 0 p1 None w2) as [[e3 p3] w3] eqn:HL.
  apply retry_loop_inv in HL; [|exact Hnn].
  destruct HL as [Hsi [_ [_ [Hev Hres]]]]. rewrite Hk in Hev.
  destruct e3 as [err|].
  - destruct Hres as [_ [Hrows Hcalls]].
    set (q := with_FailureReason (Error err) (with_Status StatusFailed p3)).
    destruct (repository.Update q w3) as [[e4 p4] w4] eqn:HU.
    assert (Hq : ID q = ID p1) by (apply (si_ID _ _ Hsi)).
    apply Update_inv in HU; [|rewrite Hq; exact Hnn].
    destruct HU as [-> [F [Hev4 _]]].
    exists (with_UpdatedAt (clock w3) q), w4.
    split; [reflexivity|].
    split; [destruct Hsi; constructor; assumption|].
    split; [right; reflexivity|].
    split; [rewrite (frame_calls _ _ F), Hcalls; reflexivity|].
    eapply evolves_trans; [exact Hev|].
    replace (ID p1) with (ID q) by exact Hq.
    replace (req_IdempotencyKey req) with (IdempotencyKey q); [exact Hev4|].
    change (IdempotencyKey q) with (IdempotencyKey p3).
    rewrite (si_IdempotencyKey _ _ Hsi). exact Hk.
  - destruct Hres as [Hst Hcalls].
    exists p3, w3.
    split; [reflexivity|]. split; [exact Hsi|].
    split; [left; exact Hst|]. split; [exact Hcalls | exact Hev].
Qed.

(** Every way a submission can end. *)
Lemma CreatePayment_cases (req : CreatePaymentRequest) (w : World)
    (r : result PaymentResponse) (w' : World) :
  CreatePayment req w = (r, w') ->
  (exists e, validatePaymentRequest req = Some e /\ r = Err e /\ w' = w) \/
  (valid req /\ exists msg,
     arrive w = (Some msg, w') /\ r = Err (ErrDriver msg)) \/
  (valid req /\ exists p,
     arrive w = (None, w') /\
     find (same_key (req_IdempotencyKey req)) (rows w') = Some p /\
     r = Ok (toPaymentResponse p)) \/
  (valid req /\ exists w1 e p1,
     arrive w = (None, w1) /\
     find (same_key (req_IdempotencyKey req)) (rows w1) = None /\
     repository.Create (fresh req) w1 = (Some e, p1, w') /\ r = Err e) \/
  (valid req /\ exists w1 p1 w2 p,
     arrive w = (None, w1) /\
     find (same_key (req_IdempotencyKey req)) (rows w1) = None /\
     repository.Create (fresh req) w1 = (None, p1, w2) /\
     r = Ok (toPaymentResponse p) /\ same_identity p1 p /\
     terminal (Status p) /\ db_calls w' = S (db_calls w2) /\
     evolves (ID p1) (req_IdempotencyKey req) (rows w2) (rows w')).
Proof.
  intros H.
  destruct (validatePaymentRequest req) as [e|] eqn:Hval.
  { left. rewrite (CreatePayment_invalid req w e Hval) in H.
    injection H as <- <-. eauto. }
  right. apply validate_None_iff in Hval.
  pose proof (GetByIdempotencyKey_eq (req_IdempotencyKey req) w) as HG.
  destruct (arrive w) as [[msg|] w1] eqn:Ha.
  { left. rewrite (CreatePayment_lookup_failed req w w1 _ Hval HG) in H.
    injection H as <- <-. eauto. }
  right.
  destruct (find (same_key (req_IdempotencyKey req)) (rows w1)) as [p|] eqn:Hf.
  { left. rewrite (CreatePayment_existing req w w1 p Hval HG) in H.
    injection H as <- <-. eauto. }
  right.
  destruct (repository.Create (fresh req) w1) as [[[e|] p1] w2] eqn:HC.
  { left. rewrite (CreatePayment_create_failed req w w1 w2 e p1 Hval HG HC) in H.
    injection H as <- <-. split; [exact Hval|]. exists w1, e, p1. auto. }
  right.
  destruct (created_outcome req w w1 w2 p1 Hval HG HC)
    as [p [w3 [HCP [Hsi [Hterm [Hcalls Hev]]]]]].
  rewrite HCP in H. injection H as <- <-.
  split; [exact Hval|]. exists w1, p1, w2, p. auto 10.
Qed.

(** A submission leaves every row that was in the table as it was. *)
Lemma CreatePayment_keeps_rows (req : CreatePaymentRequest) (w : World)
    (r : result PaymentResponse) (w' : World) (j : UUID) (p : Payment) :
  CreatePayment req w = (r, w') ->
  find (same_id j) (rows w) = Some p -> find (same_id j) (rows w') = Some p.
Proof.
  intros H Hj.
  assert (Hother : N.succ j <> j) by (apply N.neq_succ_diag_l).
  assert (Hkeep : forall v o v', arrive v = (o, v') ->
            find (same_id j) (rows v) = Some p ->
            find (same_id j) (rows v') = Some p).
  { intros v o v' Ha Hf. apply arrive_inv in Ha.
    destruct Ha as [_ [_ [Hev _]]].
    exact (evolves_keeps_others _ "" _ _ j p (Hev _ _) Hother Hf). }
  apply CreatePayment_cases in H.
  destruct H as [[e [_ [_ ->]]]
                |[[_ [msg [Ha _]]]
                 |[[_ [q [Ha _]]]
                  |[[_ [w1 [e [p1 [Ha [_ [HC _]]]]]]]
                   |[_ [w1 [p1 [w2 [q [Ha [_ [HC [_ [_ [_ [_ Hev]]]]]]]]]]]]]]]].
  - exact Hj.
  - eapply Hkeep; eassumption.
  - eapply Hkeep; eassumption.
  - apply (Hkeep _ _ _ Ha) in Hj.
    destruct (Create_inv _ _ _ _ _ HC eq_refl) as [_ [_ [_ [_ Hev]]]].
    exact (evolves_keeps_others _ "" _ _ j p (Hev _ _) Hother Hj).
  - apply (Hkeep _ _ _ Ha) in Hj.
    destruct (Create_inv _ _ _ _ _ HC eq_refl)
      as [_ [_ [_ [_ [t1 [Hev1 [Hv Hrows]]]]]]].
    pose proof (evolves_keeps_others _ "" _ _ j p (Hev1 _ _) Hother Hj) as Hj1.
    assert (Hne : ID p1 <> j).
    { intros <-. apply violated_None in Hv. destruct Hv as [Hv _].
      apply find_some_existsb in Hj1. congruence. }
    apply (evolves_keeps_others _ _ _ _ j p Hev Hne).
    rewrite Hrows. apply find_app_some. exact Hj1.
Qed.

Lemma GetPayment_cases (paymentID : string) (w : World)
    (r : result PaymentResponse) (w' : World) :
  GetPayment paymentID w = (r, w') ->
  w' = w \/ exists o, arrive w = (o, w').
Proof.
  unfold GetPayment.
  destruct (uuid_Parse paymentID) as [id|];
    [|intros H; injection H as <- <-; left; reflexivity].
  rewrite GetByID_eq.
  destruct (arrive w) as [[msg|] w1]; intros H; right.
  - injection H as <- <-. eauto.
  - destruct (find (same_id id) (rows w1)); injection H as <- <-; eauto.
Qed.

Lemma exec_keeps_rows (o : op) (w : World) (j : UUID) (p : Payment) :
  find (same_id j) (rows w) = Some p ->
  find (same_id j) (rows (exec o w)) = Some p.
Proof.
  intros Hj. destruct o as [req|paymentID]; simpl.
  - destruct (CreatePayment req w) as [r w'] eqn:H.
    exact (CreatePayment_keeps_rows req w r w' j p H Hj).
  - destruct (GetPayment paymentID w) as [r w'] eqn:H. simpl.
    apply GetPayment_cases in H. destruct H as [->|[o Ha]]; [exact Hj|].
    apply arrive_inv in Ha. destruct Ha as [_ [_ [Hev _]]].
    apply (evolves_keeps_others (N.succ j) "" _ _ j p (Hev _ _));
      [apply N.neq_succ_diag_l | exact Hj].
Qed.

(** After a submission has answered with an outcome, the row found under
    its key carries the id of that outcome. *)
Lemma CreatePayment_stored (req : CreatePaymentRequest) (w : World)
    (r : PaymentResponse) (w' : World) :
  CreatePayment req w = (Ok r, w') ->
  valid req /\
  exists p, find (same_key (req_IdempotencyKey req)) (rows w') = Some p /\
            PaymentID r = uuid_String (ID p).
Proof.
  intros H. apply CreatePayment_cases in H.
  destruct H as [[e [_ [He _]]]
                |[[_ [msg [_ He]]]
                 |[[Hv [q [Ha [Hf He]]]]
                  |[[_ [w1 [e [p1 [_ [_ [_ He]]]]]]]
                   |[Hv [w1 [p1 [w2 [q [_ [_ [HC [He [Hsi [_ [_ Hev]]]]]]]]]]]]]]]];
    try discriminate.
  - injection He as ->. split; [exact Hv|]. exists q. auto.
  - injection He as ->. split; [exact Hv|].
    destruct (Create_inv _ _ _ _ _ HC eq_refl)
      as [_ [Hsf [_ [_ [t1 [_ [Hvio Hrows]]]]]]].
    assert (Hk : IdempotencyKey p1 = req_IdempotencyKey req)
      by (apply (sf_IdempotencyKey _ _ Hsf)).
    assert (Hh : holds_record (ID p1) (req_IdempotencyKey req) (rows w2)).
    { exists p1. split; [|reflexivity]. rewrite Hrows.
      apply violated_None in Hvio. destruct Hvio as [_ Hnk].
      rewrite Hk in Hnk. rewrite find_app_none by (apply existsb_false_find, Hnk).
      simpl. rewrite (proj2 (same_key_true _ _) Hk). reflexivity. }
    destruct (evolves_holds_record _ _ _ _ Hev Hh) as [p' [Hf Hid]].
    exists p'. split; [exact Hf|].
    simpl. rewrite (si_ID _ _ Hsi), Hid. reflexivity.
Qed.

(** A repeated submission under a key that is stored answers from the
    stored row, whatever else the request says. *)
Lemma resubmission (req : CreatePaymentRequest) (w : World)
    (r : result PaymentResponse) (w' : World) (p : Payment) :
  valid req ->
  find (same_key (req_IdempotencyKey req)) (rows w) = Some p ->
  CreatePayment req w = (r, w') ->
  (exists msg, arrive w = (Some msg, w') /\ r = Err (ErrDriver msg)) \/
  (arrive w = (None, w') /\ r = Ok (toPaymentResponse p) /\
   find (same_key (req_IdempotencyKey req)) (rows w') = Some p).
Proof.
  intros Hv Hf H.
  pose proof (GetByIdempotencyKey_eq (req_IdempotencyKey req) w) as HG.
  destruct (arrive w) as [[msg|] w1] eqn:Ha.
  - left. rewrite (CreatePayment_lookup_failed req w w1 _ Hv HG) in H.
    injection H as <- <-. eauto.
  - right.
    assert (Hf1 : find (same_key (req_IdempotencyKey req)) (rows w1) = Some p).
    { destruct (arrive_appends _ _ _ Ha) as [l ->].
      apply find_app_some. exact Hf. }
    rewrite Hf1 in HG.
    rewrite (CreatePayment_existing req w w1 p Hv HG) in H.
    injection H as <- <-. auto.
Qed.

(* ================================================================== *)
(** ** Validation gates the store *)

Lemma validate_error_is_message (req : CreatePaymentRequest) (e : error) :
  validatePaymentRequest req = Some e -> exists msg, e = errorString msg.
Proof.
  unfold validatePaymentRequest.
  repeat match goal with
         | |- context [if ?c then _ else _] => destruct c
         end; intros H; try discriminate; injection H as <-; eauto.
Qed.

(** C4. A request that breaks a validation rule (amount below MinAmount,
    amount above MaxAmount, currency length other than 3, empty idempotency
    key, empty user id) gets a validation error from CreatePayment, and the
    world comes back as it went in: no statement was sent to the store and
    the table is the same. *)
Theorem C4_invalid_request_is_rejected (req : CreatePaymentRequest)
    (w : World) :
  req_Amount req < MinAmount \/ MaxAmount < req_Amount req \/
  String.length (req_Currency req) <> 3%nat \/
  req_IdempotencyKey req = "" \/ req_UserID req = "" ->
  exists msg,
    validatePaymentRequest req = Some (errorString msg) /\
    CreatePayment req w = (Err (errorString msg), w) /\
    db_calls (snd (CreatePayment req w)) = db_calls w /\
    rows (snd (CreatePayment req w)) = rows w.
Proof.
  intros Hbad.
  assert (Hnv : ~ valid req).
  { unfold valid. intros [H1 [H2 [H3 [H4 H5]]]].
    destruct Hbad as [H|[H|[H|[H|H]]]]; try contradiction; lia. }
  apply validate_Some_iff in Hnv. destruct Hnv as [e He].
  destruct (validate_error_is_message req e He) as [msg ->].
  exists msg. rewrite (CreatePayment_invalid req w _ He). auto.
Qed.

Lemma C4_invalid_request_is_rejected_witness :
  (exists msg,
     CreatePayment (mkRequest "k1" 0 "INR" "u1") (world0 quiet always_ok)
     = (Err (errorString msg), world0 quiet always_ok)) /\
  (exists msg,
     CreatePayment (mkRequest "k1" (-5) "INR" "u1") (world0 quiet always_ok)
     = (Err (errorString msg), world0 quiet always_ok)) /\
  (exists msg,
     CreatePayment (mkRequest "k1" (MaxAmount + 1) "INR" "u1")
       (world0 quiet always_ok)
     = (Err (errorString msg), world0 quiet always_ok)) /\
  (exists msg,
     CreatePayment (mkRequest "" 10 "INR" "u1") (world0 quiet always_ok)
     = (Err (errorString msg), world0 quiet always_ok)).
Proof.
  repeat split.
  - destruct (C4_invalid_request_is_rejected (mkRequest "k1" 0 "INR" "u1")
                (world0 quiet always_ok)) as [msg [_ [H _]]].
    + left. unfold MinAmount. simpl. lia.
    + exists msg. exact H.
  - destruct (C4_invalid_request_is_rejected (mkRequest "k1" (-5) "INR" "u1")
                (world0 quiet always_ok)) as [msg [_ [H _]]].
    + left. unfold MinAmount. simpl. lia.
    + exists msg. exact H.
  - destruct (C4_invalid_request_is_rejected
                (mkRequest "k1" (MaxAmount + 1) "INR" "u1")
                (world0 quiet always_ok)) as [msg [_ [H _]]].
    + right. left. unfold MaxAmount. simpl. lia.
    + exists msg. exact H.
  - destruct (C4_invalid_request_is_rejected (mkRequest "" 10 "INR" "u1")
                (world0 quiet always_ok)) as [msg [_ [H _]]].
    + right. right. right. left. reflexivity.
    + exists msg. exact H.
Defined.

(* ================================================================== *)
(** ** Fetching *)

(** C8. GetPayment on a string that does not parse as an id answers with
    the input error "invalid payment ID format" and sends nothing to the
    store; on a well-formed id without a stored record it answers with
    "payment not found"; a fault of the store comes back as the store's own
    error. The three errors are pairwise different. *)
Theorem C8_fetch_errors (paymentID : string) (w : World) :
  (uuid_Parse paymentID = None ->
   GetPayment paymentID w = (Err (errorString "invalid payment ID format"), w))
  /\
  (forall id w1,
     uuid_Parse paymentID = Some id -> arrive w = (None, w1) ->
     find (same_id id) (rows w1) = None ->
     GetPayment paymentID w = (Err (errorString "payment not found"), w1)) /\
  (forall id msg w1,
     uuid_Parse paymentID = Some id -> arrive w = (Some msg, w1) ->
     GetPayment paymentID w = (Err (ErrDriver msg), w1)) /\
  errorString "invalid payment ID format" <> errorString "payment not found" /\
  (forall msg, ErrDriver msg <> errorString "payment not found") /\
  (forall msg, ErrDriver msg <> errorString "invalid payment ID format").
Proof.
  unfold GetPayment. repeat split.
  - intros ->. reflexivity.
  - intros id w1 -> Ha Hf. rewrite GetByID_eq, Ha, Hf. reflexivity.
  - intros id msg w1 -> Ha. rewrite GetByID_eq, Ha. reflexivity.
  - discriminate.
  - discriminate.
  - discriminate.
Qed.

Lemma C8_fetch_errors_witness :
  GetPayment "not-a-uuid" (world0 quiet always_ok)
  = (Err (errorString "invalid payment ID format"), world0 quiet always_ok) /\
  fst (GetPayment "00000000-0000-4000-8000-0000000003e8"
         (world0 quiet always_ok))
  = Err (errorString "payment not found") /\
  fst (GetPayment "00000000-0000-4000-8000-0000000003e8"
         (world0 (env_fault_at 0) always_ok))
  = Err (ErrDriver "connection reset by peer").
Proof.
  split; [|split].
  - apply (C8_fetch_errors "not-a-uuid" (world0 quiet always_ok)).
    reflexivity.
  - rewrite (proj1 (proj2 (C8_fetch_errors
               "00000000-0000-4000-8000-0000000003e8"
               (world0 quiet always_ok)))
               (uuid_stamp 1000)
               (set_db_calls 1 (world0 quiet always_ok))
               eq_refl eq_refl eq_refl).
    reflexivity.
  - rewrite (proj1 (proj2 (proj2 (C8_fetch_errors
               "00000000-0000-4000-8000-0000000003e8"
               (world0 (env_fault_at 0) always_ok))))
               (uuid_stamp 1000) "connection reset by peer"
               (set_db_calls 1 (world0 (env_fault_at 0) always_ok))
               eq_refl eq_refl).
    reflexivity.
Defined.

(* ================================================================== *)
(** ** Stored records stay as they are *)

Lemma run_keeps_rows (ops : list op) :
  forall (w : World) (j : UUID) (p : Payment),
  find (same_id j) (rows w) = Some p ->
  find (same_id j) (rows (run ops w)) = Some p.
Proof.
  unfold run. induction ops as [|o ops IH]; intros w j p Hj; simpl.
  - exact Hj.
  - apply IH. apply exec_keeps_rows. exact Hj.
Qed.

(** C7. A stored record whose status is Success or Failed keeps its status
    (indeed the whole row) through every later run of submissions and
    fetches, under its own key or another one. The retry loop, run for
    another record, leaves it alone too, and never assigns Failed. A
    submission that stores a new record stores it as Initiated and ends,
    after exactly one more statement, with a status that is Success or
    Failed. *)
Theorem C7_terminal_status_is_final (w : World) (j : UUID) (p : Payment) :
  find (same_id j) (rows w) = Some p -> terminal (Status p) ->
  (forall ops,
     find (same_id j) (rows (run ops w)) = Some p /\
     option_map Status (find (same_id j) (rows (run ops w)))
     = Some (Status p)) /\
  (forall q e q' w',
     ID q <> uuid_Nil -> ID q <> j ->
     processPaymentWithRetry q w = (e, q', w') ->
     find (same_id j) (rows w') = Some p /\
     (Status q' = StatusSuccess \/ Status q' = Status q)) /\
  (forall req w1 p1 w2,
     valid req ->
     repository.GetByIdempotencyKey (req_IdempotencyKey req) w = (Ok None, w1) ->
     repository.Create (fresh req) w1 = (None, p1, w2) ->
     Status p1 = StatusInitiated /\
     exists q w',
       CreatePayment req w = (Ok (toPaymentResponse q), w') /\
       terminal (Status q) /\ db_calls w' = S (db_calls w2)).
Proof.
  intros Hj Hterm. split; [|split].
  - intros ops. rewrite (run_keeps_rows ops w j p Hj). auto.
  - intros q e q' w' Hnn Hne HL. unfold processPaymentWithRetry in HL.
    apply retry_loop_inv in HL; [|exact Hnn].
    destruct HL as [_ [_ [_ [Hev Hres]]]]. split.
    + exact (evolves_keeps_others _ _ _ _ j p Hev Hne Hj).
    + destruct e; [right|left]; apply Hres.
  - intros req w1 p1 w2 Hv HG HC. split.
    + destruct (Create_inv _ _ _ _ _ HC eq_refl) as [_ [Hsf _]].
      apply (sf_Status _ _ Hsf).
    + destruct (created_outcome req w w1 w2 p1 Hv HG HC)
        as [q [w' [HCP [_ [Ht [Hcalls _]]]]]].
      exists q, w'. auto.
Qed.

Lemma C7_terminal_status_is_final_witness :
  find (same_id id_k1) (rows world_after_k1) = Some stored_k1 /\
  Status stored_k1 = StatusSuccess /\
  find (same_id id_k1)
    (rows (run [Submit req_k1; Fetch "00000000-0000-4000-8000-0000000003e8";
                Submit req_k1_other;
                Submit (mkRequest "k2" 7 "EUR" "u3")] world_after_k1))
  = Some stored_k1.
Proof.
  split; [vm_compute; reflexivity|]. split; [reflexivity|].
  apply (C7_terminal_status_is_final world_after_k1 id_k1 stored_k1).
  - vm_compute. reflexivity.
  - left. reflexivity.
Defined.

(* ================================================================== *)
(** ** Idempotency *)

(** C2. When a request is submitted twice in a row and both submissions
    answer with an outcome, the two outcomes carry the same paymentId; the
    second submission makes no processing attempt, does not sleep, and its
    only effect is the one lookup statement: every stored row is as before.
    Whenever the lookup finds a record, its state is the outcome, whatever
    its status. *)
Theorem C2_idempotent_resubmission (req : CreatePaymentRequest) (w : World)
    (r1 : PaymentResponse) (w1 : World) (r2 : PaymentResponse) (w2 : World) :
  CreatePayment req w = (Ok r1, w1) ->
  CreatePayment req w1 = (Ok r2, w2) ->
  PaymentID r2 = PaymentID r1 /\
  attempts w2 = attempts w1 /\ sleeps w2 = sleeps w1 /\
  arrive w1 = (None, w2) /\
  (db_env w1 (db_calls w1) = Quiet -> rows w2 = rows w1) /\
  (forall j p, find (same_id j) (rows w1) = Some p ->
               find (same_id j) (rows w2) = Some p) /\
  (forall v v' existing,
     repository.GetByIdempotencyKey (req_IdempotencyKey req) v
       = (Ok (Some existing), v') ->
     CreatePayment req v = (Ok (toPaymentResponse existing), v') /\
     resp_Status (toPaymentResponse existing) = Status existing).
Proof.
  intros H1 H2.
  destruct (CreatePayment_stored req w r1 w1 H1) as [Hv [p [Hf Hid]]].
  pose proof (CreatePayment_keeps_rows req w1 (Ok r2) w2) as Hkeep.
  destruct (resubmission req w1 (Ok r2) w2 p Hv Hf H2)
    as [[msg [_ Habs]]|[Ha [Hr _]]]; [discriminate|].
  injection Hr as ->.
  pose proof (arrive_inv _ _ _ Ha) as [F [_ [_ [Hq _]]]].
  split; [simpl; symmetry; exact Hid|].
  split; [apply (frame_attempts _ _ F)|].
  split; [apply (frame_sleeps _ _ F)|].
  split; [exact Ha|].
  split; [intros HQ; apply (Hq HQ)|].
  split; [intros j q Hj; exact (Hkeep j q H2 Hj)|].
  intros v v' existing HG.
  split; [exact (CreatePayment_existing req v v' existing Hv HG) | reflexivity].
Qed.

Lemma C2_idempotent_resubmission_witness :
  CreatePayment req_k1 (world0 quiet always_ok)
  = (Ok (toPaymentResponse stored_k1), world_after_k1) /\
  CreatePayment req_k1 world_after_k1
  = (Ok (toPaymentResponse stored_k1), set_db_calls 4 world_after_k1) /\
  attempts (set_db_calls 4 world_after_k1) = attempts world_after_k1 /\
  rows (set_db_calls 4 world_after_k1) = rows world_after_k1.
Proof.
  assert (H1 : CreatePayment req_k1 (world0 quiet always_ok)
               = (Ok (toPaymentResponse stored_k1), world_after_k1))
    by (vm_compute; reflexivity).
  assert (H2 : CreatePayment req_k1 world_after_k1
               = (Ok (toPaymentResponse stored_k1),
                  set_db_calls 4 world_after_k1))
    by (vm_compute; reflexivity).
  split; [exact H1|]. split; [exact H2|].
  destruct (C2_idempotent_resubmission req_k1 (world0 quiet always_ok)
              _ _ _ _ H1 H2) as [_ [Hat [_ [_ [Hrows _]]]]].
  split; [exact Hat|]. apply Hrows. vm_compute. reflexivity.
Defined.

(** C10. After a submission under key K has answered with an outcome, a
    valid request with the same key and any amount, currency and user id
    is answered from the stored record: same paymentId, and the status,
    amount and currency of that record. The fields of the second request
    are not compared and not stored, the record under K is the same
    afterwards, and the only error the second submission can return is a
    fault of the lookup itself. *)
Theorem C10_same_key_other_fields (req1 req2 : CreatePaymentRequest)
    (w : World) (r1 : PaymentResponse) (w1 : World)
    (r2 : result PaymentResponse) (w2 : World) :
  CreatePayment req1 w = (Ok r1, w1) ->
  valid req2 ->
  req_IdempotencyKey req2 = req_IdempotencyKey req1 ->
  CreatePayment req2 w1 = (r2, w2) ->
  exists stored,
    find (same_key (req_IdempotencyKey req1)) (rows w1) = Some stored /\
    PaymentID r1 = uuid_String (ID stored) /\
    ((exists msg, db_env w1 (db_calls w1) = Fault msg /\
                  r2 = Err (ErrDriver msg)) \/
     (r2 = Ok {| PaymentID := PaymentID r1;
                 resp_Status := Status stored;
                 resp_Amount := Amount stored;
                 resp_Currency := Currency stored;
                 resp_CreatedAt := CreatedAt stored |} /\
      find (same_key (req_IdempotencyKey req1)) (rows w2) = Some stored /\
      attempts w2 = attempts w1)).
Proof.
  intros H1 Hv2 Hk H2.
  destruct (CreatePayment_stored req1 w r1 w1 H1) as [_ [p [Hf Hid]]].
  exists p. split; [exact Hf|]. split; [exact Hid|].
  rewrite <- Hk in Hf.
  destruct (resubmission req2 w1 r2 w2 p Hv2 Hf H2)
    as [[msg [Ha Hr]]|[Ha [Hr Hf2]]].
  - left. exists msg. split; [|exact Hr].
    apply arrive_inv in Ha. destruct Ha as [_ [_ [_ [_ [_ Hs]]]]].
    apply (Hs msg eq_refl).
  - right. rewrite Hk in Hf2.
    split; [|split; [exact Hf2|]].
    + rewrite Hr, Hid. reflexivity.
    + apply arrive_inv in Ha. destruct Ha as [F _].
      apply (frame_attempts _ _ F).
Qed.

Lemma C10_same_key_other_fields_witness :
  CreatePayment req_k1 (world0 quiet always_ok)
  = (Ok (toPaymentResponse stored_k1), world_after_k1) /\
  find (same_key "k1") (rows world_after_k1) = Some stored_k1 /\
  CreatePayment req_k1_other world_after_k1
  = (Ok {| PaymentID := uuid_String id_k1;
           resp_Status := StatusSuccess;
           resp_Amount := 10000;
           resp_Currency := "INR";
           resp_CreatedAt := 1700000000 |},
     set_db_calls 4 world_after_k1) /\
  find (same_key "k1") (rows (set_db_calls 4 world_after_k1))
  = Some stored_k1.
Proof.
  assert (H1 : CreatePayment req_k1 (world0 quiet always_ok)
               = (Ok (toPaymentResponse stored_k1), world_after_k1))
    by (vm_compute; reflexivity).
  assert (Hc : find (same_key "k1") (rows world_after_k1) = Some stored_k1)
    by (vm_compute; reflexivity).
  assert (Hv : valid req_k1_other).
  { unfold valid, MinAmount, MaxAmount. simpl.
    repeat split; try lia; discriminate. }
  destruct (C10_same_key_other_fields req_k1 req_k1_other
              (world0 quiet always_ok) (toPaymentResponse stored_k1)
              world_after_k1
              (fst (CreatePayment req_k1_other world_after_k1))
              (snd (CreatePayment req_k1_other world_after_k1))
              H1 Hv eq_refl (surjective_pairing _))
    as [stored [Hf [_ Hres]]].
  change (req_IdempotencyKey req_k1) with "k1" in Hf, Hres.
  rewrite Hc in Hf. injection Hf as <-.
  split; [exact H1|]. split; [exact Hc|].
  destruct Hres as [[msg [Hfault _]]|[_ [Hf2 _]]].
  - vm_compute in Hfault. discriminate.
  - split; [vm_compute; reflexivity|].
    vm_compute. reflexivity.
Defined.

(* ================================================================== *)
(** ** Retries: exhaustion and backoff *)

Lemma GetByIdempotencyKey_frame (key : string) (w : World)
    (r : result (option Payment)) (w1 : World) :
  repository.GetByIdempotencyKey key w = (r, w1) -> db_frame w w1.
Proof.
  rewrite GetByIdempotencyKey_eq.
  destruct (arrive w) as [[msg|] v] eqn:Ha; intros H; injection H as <- <-;
    apply (arrive_inv _ _ _ Ha).
Qed.

(** The world after three failed attempts. *)
Lemma loop_all_fail (p : Payment) (w : World) :
  (forall k, (k < Z.to_nat MaxRetries)%nat ->
             gateway w (k + attempts w)%nat = true) ->
  processPaymentWithRetry p w =
  (Some (errorString "payment failed after 3 retries: payment gateway timeout"),
   with_RetryCount MaxRetries p,
   set_attempts (Z.to_nat MaxRetries + attempts w)%nat
     (time_Sleep (backoff 1) (time_Sleep (backoff 0) w))).
Proof.
  intros H. unfold processPaymentWithRetry.
  change (Z.to_nat MaxRetries) with 3%nat in *.
  rewrite loop_fail_step by (apply (H 0%nat); lia).
  change (0 <? MaxRetries - 1) with true. cbv iota.
  rewrite loop_fail_step by (apply (H 1%nat); lia).
  change (0 + 1 <? MaxRetries - 1) with true. cbv iota.
  rewrite loop_fail_step by (apply (H 2%nat); lia).
  reflexivity.
Qed.

Lemma loop_success_sleeps (n : nat) (i : Z) (p : Payment) (l : option error)
    (w : World) (e : option error) (p' : Payment) (w' : World) :
  gateway w (attempts w) = false ->
  retry_loop (S n) i p l w = (e, p', w') ->
  sleeps w' = (sleeps w ++ [50 * Millisecond])%list /\
  attempts w' = S (attempts w).
Proof.
  intros Hg H. rewrite (loop_success_step n i p l w Hg) in H.
  match type of H with
  | context [repository.Update ?q ?v] =>
      pose proof (Update_frame q v) as F;
      destruct (repository.Update q v) as [[e1 q1] v1]
  end.
  injection H as <- <- <-. simpl in F.
  rewrite (frame_sleeps _ _ F), (frame_attempts _ _ F). auto.
Qed.

(** C5. When the record is new and the gateway fails on the three
    attempts that follow, the loop makes exactly MaxRetries = 3 attempts
    and gives up with the record at retryCount 3; CreatePayment then
    answers with a payment outcome (not an error) built from the record
    with status Failed and the failure reason "payment failed after 3
    retries: payment gateway timeout", and, the update statement reaching
    the store undisturbed, that record is the stored one. *)
Theorem C5_retry_exhaustion (req : CreatePaymentRequest) (w w1 : World)
    (p1 : Payment) (w2 : World) :
  valid req ->
  repository.GetByIdempotencyKey (req_IdempotencyKey req) w = (Ok None, w1) ->
  repository.Create (fresh req) w1 = (None, p1, w2) ->
  (forall k, (k < Z.to_nat MaxRetries)%nat ->
             gateway w (k + attempts w)%nat = true) ->
  exists w3 final w4,
    processPaymentWithRetry p1 w2 =
      (Some (errorString
               ("payment failed after " ++ fmt_d MaxRetries ++ " retries: "
                  ++ Error (errorString "payment gateway timeout"))),
       with_RetryCount MaxRetries p1, w3) /\
    attempts w3 = (Z.to_nat MaxRetries + attempts w)%nat /\
    CreatePayment req w = (Ok (toPaymentResponse final), w4) /\
    attempts w4 = (Z.to_nat MaxRetries + attempts w)%nat /\
    MaxRetries = 3 /\
    ID final = ID p1 /\
    RetryCount final = MaxRetries /\
    Status final = StatusFailed /\
    FailureReason final
      = "payment failed after 3 retries: payment gateway timeout" /\
    FailureReason final <> "" /\
    resp_Status (toPaymentResponse final) = StatusFailed /\
    (db_env w (2 + db_calls w)%nat = Quiet ->
     find (same_id (ID p1)) (rows w4) = Some final).
Proof.
  intros Hv HG HC Hfail.
  pose proof (GetByIdempotencyKey_frame _ _ _ _ HG) as F1.
  destruct (Create_inv _ _ _ _ _ HC eq_refl)
    as [F2 [Hsf [Hnn [_ [t1 [_ [_ Hrows]]]]]]].
  assert (Hat : attempts w2 = attempts w)
    by (rewrite (frame_attempts _ _ F2); apply (frame_attempts _ _ F1)).
  assert (Hgw : gateway w2 = gateway w)
    by (rewrite (frame_gateway _ _ F2); apply (frame_gateway _ _ F1)).
  assert (HL := loop_all_fail p1 w2).
  rewrite Hgw, Hat in HL. specialize (HL Hfail).
  set (w3 := set_attempts (Z.to_nat MaxRetries + attempts w)%nat
               (time_Sleep (backoff 1) (time_Sleep (backoff 0) w2))) in *.
  set (q := with_FailureReason
              "payment failed after 3 retries: payment gateway timeout"
              (with_Status StatusFailed (with_RetryCount MaxRetries p1))).
  destruct (repository.Update q w3) as [[e4 p4] w4] eqn:HU.
  exists w3, p4, w4.
  split; [exact HL|]. split; [reflexivity|].
  split.
  { rewrite (CreatePayment_created req w w1 w2 p1 Hv HG HC), HL.
    simpl Error. fold q. rewrite HU. reflexivity. }
  destruct (Update_inv _ _ _ _ _ HU Hnn) as [-> [F4 [_ [_ Hquiet]]]].
  split; [rewrite (frame_attempts _ _ F4); reflexivity|].
  split; [reflexivity|]. split; [reflexivity|]. split; [reflexivity|].
  split; [reflexivity|]. split; [reflexivity|]. split; [discriminate|].
  split; [reflexivity|].
  intros HQ.
  assert (Hin : existsb (same_id (ID q)) (rows w3) = true).
  { change (rows w3) with (rows w2). rewrite Hrows, existsb_app. simpl.
    change (ID q) with (ID p1).
    rewrite (proj2 (same_id_true (ID p1) p1) eq_refl).
    rewrite orb_true_r. reflexivity. }
  rewrite Hquiet;
    [exact (find_id_overwrite_same (with_UpdatedAt (clock w3) q) _ Hin)
    | |exact Hin].
  change (db_env w3) with (db_env w2). change (db_calls w3) with (db_calls w2).
  rewrite (frame_env _ _ F2), (frame_env _ _ F1).
  rewrite (frame_calls _ _ F2), (frame_calls _ _ F1). exact HQ.
Qed.

Lemma C5_retry_exhaustion_witness :
  exists final w4,
    CreatePayment req_k1 (world0 quiet always_fail)
    = (Ok (toPaymentResponse final), w4) /\
    attempts w4 = 3%nat /\
    RetryCount final = 3 /\ Status final = StatusFailed /\
    FailureReason final
    = "payment failed after 3 retries: payment gateway timeout" /\
    find (same_id (ID final)) (rows w4) = Some final.
Proof.
  assert (Hv : valid req_k1).
  { unfold valid, MinAmount, MaxAmount. simpl.
    repeat split; try lia; discriminate. }
  destruct (C5_retry_exhaustion req_k1 (world0 quiet always_fail)
              (set_db_calls 1 (world0 quiet always_fail))
              (snd (fst (repository.Create (fresh req_k1)
                           (set_db_calls 1 (world0 quiet always_fail)))))
              (snd (repository.Create (fresh req_k1)
                      (set_db_calls 1 (world0 quiet always_fail)))))
    as [w3 [final [w4 [_ [_ [HCP [Hat [_ [Hid [Hrc [Hst [Hfr [_ [_ Hsto]]]]]]]]]]]]]].
  - exact Hv.
  - vm_compute. reflexivity.
  - vm_compute. reflexivity.
  - intros k _. reflexivity.
  - exists final, w4.
    split; [exact HCP|]. split; [exact Hat|]. split; [exact Hrc|].
    split; [exact Hst|]. split; [exact Hfr|].
    rewrite Hid. apply Hsto. reflexivity.
Defined.

Lemma backoff_linear (n : Z) : backoff (n - 1) = n * baseDelay.
Proof. unfold backoff, baseDelay. ring. Qed.

(** C6. Let the first [k] attempts of the loop fail and, if [k] is below
    MaxRetries, the next one succeed. The delays slept during the loop are
    then 1 x baseDelay, ..., n x baseDelay for the failed attempts
    n = 1 .. min k (MaxRetries - 1), followed only by the processing time of
    the successful attempt if there is one: nothing is slept after the last
    of MaxRetries failed attempts. The delay after a failed attempt n is
    [backoff (n - 1)] = n x baseDelay, with baseDelay 100 ms, and exceeds
    the delay after attempt n - 1. *)
Theorem C6_backoff_schedule (p : Payment) (w : World) (k : nat)
    (e : option error) (p' : Payment) (w' : World) :
  (k <= Z.to_nat MaxRetries)%nat ->
  (forall j, (j < k)%nat -> gateway w (j + attempts w)%nat = true) ->
  ((k < Z.to_nat MaxRetries)%nat -> gateway w (k + attempts w)%nat = false) ->
  processPaymentWithRetry p w = (e, p', w') ->
  sleeps w' =
    (sleeps w ++ backoffs (Nat.min k (Z.to_nat MaxRetries - 1))
       ++ (if Nat.ltb k (Z.to_nat MaxRetries)
           then [50 * Millisecond] else []))%list /\
  (forall n, 1 <= n ->
     backoff (n - 1) = n * baseDelay /\ backoff (n - 2) < backoff (n - 1)) /\
  baseDelay = 100 * Millisecond.
Proof.
  intros Hk Hfail Hok HL.
  split; [|split; [|reflexivity]].
  2:{ intros n Hn. split; [apply backoff_linear|].
      replace (n - 2) with ((n - 1) - 1) by ring.
      rewrite !backoff_linear. unfold baseDelay, Millisecond. lia. }
  unfold processPaymentWithRetry in HL.
  change (Z.to_nat MaxRetries) with 3%nat in *.
  destruct k as [|[|[|[|k]]]]; [| | | |lia].
  - apply loop_success_sleeps in HL; [|apply Hok; lia].
    destruct HL as [-> _]. reflexivity.
  - rewrite loop_fail_step in HL by (apply (Hfail 0%nat); lia).
    change (0 <? MaxRetries - 1) with true in HL. cbv iota in HL.
    apply loop_success_sleeps in HL; [|apply Hok; lia].
    destruct HL as [-> _]. simpl sleeps. rewrite <- app_assoc. reflexivity.
  - rewrite loop_fail_step in HL by (apply (Hfail 0%nat); lia).
    change (0 <? MaxRetries - 1) with true in HL. cbv iota in HL.
    rewrite loop_fail_step in HL by (apply (Hfail 1%nat); lia).
    change (0 + 1 <? MaxRetries - 1) with true in HL. cbv iota in HL.
    apply loop_success_sleeps in HL; [|apply Hok; lia].
    destruct HL as [-> _]. simpl sleeps. rewrite <- !app_assoc. reflexivity.
  - assert (HA := loop_all_fail p w).
    unfold processPaymentWithRetry in HA.
    change (Z.to_nat MaxRetries) with 3%nat in HA.
    rewrite HA in HL by (intros j Hj; apply Hfail; exact Hj).
    injection HL as <- <- <-. simpl sleeps. rewrite <- !app_assoc.
    reflexivity.
Qed.

Lemma C6_backoff_schedule_witness :
  sleeps (snd (processPaymentWithRetry pending_k1 (world0 quiet always_fail)))
  = [100 * Millisecond; 200 * Millisecond] /\
  sleeps (snd (processPaymentWithRetry pending_k1
                 (world0 quiet (fails_first 2))))
  = [100 * Millisecond; 200 * Millisecond; 50 * Millisecond] /\
  sleeps (snd (processPaymentWithRetry pending_k1
                 (world0 quiet (fails_first 1))))
  = [100 * Millisecond; 50 * Millisecond].
Proof.
  split; [|split].
  - apply (C6_backoff_schedule pending_k1 (world0 quiet always_fail) 3
             (fst (fst (processPaymentWithRetry pending_k1
                          (world0 quiet always_fail))))
             (snd (fst (processPaymentWithRetry pending_k1
                          (world0 quiet always_fail))))).
    + simpl. lia.
    + intros j _. reflexivity.
    + simpl. lia.
    + vm_compute. reflexivity.
  - apply (C6_backoff_schedule pending_k1 (world0 quiet (fails_first 2)) 2
             (fst (fst (processPaymentWithRetry pending_k1
                          (world0 quiet (fails_first 2)))))
             (snd (fst (processPaymentWithRetry pending_k1
                          (world0 quiet (fails_first 2)))))).
    + simpl. lia.
    + intros j Hj. unfold fails_first. simpl.
      rewrite Nat.add_0_r. apply Nat.ltb_lt. exact Hj.
    + intros _. reflexivity.
    + vm_compute. reflexivity.
  - apply (C6_backoff_schedule pending_k1 (world0 quiet (fails_first 1)) 1
             (fst (fst (processPaymentWithRetry pending_k1
                          (world0 quiet (fails_first 1)))))
             (snd (fst (processPaymentWithRetry pending_k1
                          (world0 quiet (fails_first 1)))))).
    + simpl. lia.
    + intros j Hj. unfold fails_first. simpl.
      rewrite Nat.add_0_r. apply Nat.ltb_lt. exact Hj.
    + intros _. reflexivity.
    + vm_compute. reflexivity.
Defined.

(* ================================================================== *)
(** ** Errors of the store *)

(** A fault of the update statement leaves the table as the loop found it. *)
Lemma retry_loop_fault (n : nat) :
  forall (i : Z) (p : Payment) (l : option error) (w : World)
         (e : option error) (p' : Payment) (w' : World) (msg : string),
  retry_loop n i p l w = (e, p', w') -> ID p <> uuid_Nil ->
  db_env w (db_calls w) = Fault msg -> rows w' = rows w.
Proof.
  induction n as [|n IH]; intros i p l w e p' w' msg H Hnn Hf.
  - simpl in H. injection H as <- <- <-. reflexivity.
  - destruct (gateway w (attempts w)) eqn:Hg.
    + rewrite (loop_fail_step n i p l w Hg) in H.
      apply (IH _ _ _ _ _ _ _ msg) in H; [|exact Hnn|].
      * rewrite H. destruct (i <? MaxRetries - 1); reflexivity.
      * destruct (i <? MaxRetries - 1); exact Hf.
    + rewrite (loop_success_step n i p l w Hg) in H.
      match type of H with
      | context [repository.Update ?q ?v] =>
          destruct (repository.Update q v) as [[e1 q1] v1] eqn:HU
      end.
      injection H as <- <- <-.
      apply Update_inv in HU; [|exact Hnn].
      destruct HU as [_ [_ [_ [Hfault _]]]].
      exact (Hfault msg Hf).
Qed.

(** C1 (as the code has it). When the INSERT of a valid submission fails
    with a violation of a unique index, on the idempotency key or any
    other, CreatePayment returns that error to the caller. The record
    stored under the key is not read again: the lookup and the INSERT are
    the only two statements, and no processing attempt is made. *)
Theorem C1_duplicate_key_is_returned (req : CreatePaymentRequest)
    (w w1 : World) (index : string) (p1 : Payment) (w2 : World) :
  valid req ->
  repository.GetByIdempotencyKey (req_IdempotencyKey req) w = (Ok None, w1) ->
  repository.Create (fresh req) w1 = (Some (ErrUniqueViolation index), p1, w2) ->
  CreatePayment req w = (Err (ErrUniqueViolation index), w2) /\
  db_calls w2 = (2 + db_calls w)%nat /\
  attempts w2 = attempts w.
Proof.
  intros Hv HG HC.
  split; [exact (CreatePayment_create_failed req w w1 w2 _ p1 Hv HG HC)|].
  pose proof (GetByIdempotencyKey_frame _ _ _ _ HG) as F1.
  destruct (Create_inv _ _ _ _ _ HC eq_refl) as [F2 _].
  split.
  - rewrite (frame_calls _ _ F2), (frame_calls _ _ F1). reflexivity.
  - rewrite (frame_attempts _ _ F2), (frame_attempts _ _ F1). reflexivity.
Qed.

Lemma C1_duplicate_key_is_returned_witness :
  CreatePayment req_k1 (world0 env_race always_ok)
  = (Err (ErrUniqueViolation "idx_payments_idempotency_key"),
     snd (repository.Create (fresh req_k1)
            (set_db_calls 1 (world0 env_race always_ok)))).
Proof.
  apply (C1_duplicate_key_is_returned req_k1 (world0 env_race always_ok)
           (set_db_calls 1 (world0 env_race always_ok))
           "idx_payments_idempotency_key"
           (snd (fst (repository.Create (fresh req_k1)
                        (set_db_calls 1 (world0 env_race always_ok)))))).
  - unfold valid, MinAmount, MaxAmount. simpl.
    repeat split; try lia; discriminate.
  - vm_compute. reflexivity.
  - vm_compute. reflexivity.
Defined.

(** Against C1 as claimed: a valid request whose lookup finds nothing and
    whose INSERT loses the race against a concurrent INSERT under the same
    key. The duplicate-key error is what the caller gets, although the
    winning record is in the table. *)
Lemma C1_counterexample :
  valid req_k1 /\
  repository.GetByIdempotencyKey "k1" (world0 env_race always_ok)
  = (Ok None, set_db_calls 1 (world0 env_race always_ok)) /\
  fst (fst (repository.Create (fresh req_k1)
              (set_db_calls 1 (world0 env_race always_ok))))
  = Some (ErrUniqueViolation "idx_payments_idempotency_key") /\
  fst (CreatePayment req_k1 (world0 env_race always_ok))
  = Err (ErrUniqueViolation "idx_payments_idempotency_key") /\
  find (same_key "k1")
    (rows (snd (CreatePayment req_k1 (world0 env_race always_ok))))
  = Some rival /\
  ~ (exists existing w',
       CreatePayment req_k1 (world0 env_race always_ok)
       = (Ok (toPaymentResponse existing), w')).
Proof.
  split.
  { unfold valid, MinAmount, MaxAmount. simpl.
    repeat split; try lia; discriminate. }
  split; [vm_compute; reflexivity|].
  split; [vm_compute; reflexivity|].
  assert (H : fst (CreatePayment req_k1 (world0 env_race always_ok))
              = Err (ErrUniqueViolation "idx_payments_idempotency_key"))
    by (vm_compute; reflexivity).
  split; [exact H|].
  split; [vm_compute; reflexivity|].
  intros [existing [w' Heq]]. rewrite Heq in H. discriminate.
Qed.

(** C9 (as the code has it). A fault of the idempotency lookup, and any
    error of the INSERT, are returned to the caller and no outcome is
    produced. The result of the update statement is not looked at: once the
    record is stored, CreatePayment answers with a payment outcome whose
    status is Success or Failed, and when the update statement faults the
    table stays as the INSERT left it. *)
Theorem C9_storage_faults (req : CreatePaymentRequest) (w : World) :
  valid req ->
  (forall msg w1,
     arrive w = (Some msg, w1) ->
     CreatePayment req w = (Err (ErrDriver msg), w1)) /\
  (forall w1 e p1 w2,
     repository.GetByIdempotencyKey (req_IdempotencyKey req) w = (Ok None, w1) ->
     repository.Create (fresh req) w1 = (Some e, p1, w2) ->
     CreatePayment req w = (Err e, w2)) /\
  (forall w1 p1 w2,
     repository.GetByIdempotencyKey (req_IdempotencyKey req) w = (Ok None, w1) ->
     repository.Create (fresh req) w1 = (None, p1, w2) ->
     exists q w',
       CreatePayment req w = (Ok (toPaymentResponse q), w') /\
       terminal (Status q) /\
       (forall msg, db_env w (2 + db_calls w)%nat = Fault msg ->
                    rows w' = rows w2)).
Proof.
  intros Hv. split; [|split].
  - intros msg w1 Ha. apply (CreatePayment_lookup_failed req w w1 _ Hv).
    rewrite GetByIdempotencyKey_eq, Ha. reflexivity.
  - intros w1 e p1 w2 HG HC.
    exact (CreatePayment_create_failed req w w1 w2 e p1 Hv HG HC).
  - intros w1 p1 w2 HG HC.
    destruct (created_outcome req w w1 w2 p1 Hv HG HC)
      as [q [w' [HCP [_ [Ht _]]]]].
    exists q, w'. split; [exact HCP|]. split; [exact Ht|].
    intros msg Hf.
    pose proof (GetByIdempotencyKey_frame _ _ _ _ HG) as F1.
    destruct (Create_inv _ _ _ _ _ HC eq_refl) as [F2 [_ [Hnn _]]].
    assert (Hf2 : db_env w2 (db_calls w2) = Fault msg).
    { rewrite (frame_env _ _ F2), (frame_env _ _ F1).
      rewrite (frame_calls _ _ F2), (frame_calls _ _ F1). exact Hf. }
    rewrite (CreatePayment_created req w w1 w2 p1 Hv HG HC) in HCP.
    unfold processPaymentWithRetry in HCP.
    destruct (retry_loop (Z.to_nat MaxRetries) 0 p1 None w2)
      as [[e3 p3] w3] eqn:HL.
    pose proof (retry_loop_fault _ _ _ _ _ _ _ _ msg HL Hnn Hf2) as Hr3.
    destruct (retry_loop_inv _ _ _ _ _ _ _ _ HL Hnn)
      as [Hsi [He3 [_ [_ Hres]]]].
    destruct e3 as [err|].
    + destruct Hres as [_ [_ Hcalls]].
      match type of HCP with
      | context [repository.Update ?a ?v] =>
          destruct (repository.Update a v) as [[e4 p4] w4] eqn:HU
      end.
      apply (f_equal snd) in HCP. simpl in HCP. subst w'.
      apply Update_inv in HU; [|simpl; rewrite (si_ID _ _ Hsi); exact Hnn].
      destruct HU as [_ [_ [_ [Hfault _]]]].
      rewrite (Hfault msg); [exact Hr3|].
      rewrite He3, Hcalls. exact Hf2.
    + apply (f_equal snd) in HCP. simpl in HCP. subst w'. exact Hr3.
Qed.

Lemma C9_storage_faults_witness :
  CreatePayment req_k1 (world0 (env_fault_at 0) always_ok)
  = (Err (ErrDriver "connection reset by peer"),
     set_db_calls 1 (world0 (env_fault_at 0) always_ok)) /\
  CreatePayment req_k1 (world0 (env_fault_at 1) always_ok)
  = (Err (ErrDriver "connection reset by peer"),
     snd (repository.Create (fresh req_k1)
            (set_db_calls 1 (world0 (env_fault_at 1) always_ok)))).
Proof.
  assert (Hv : valid req_k1).
  { unfold valid, MinAmount, MaxAmount. simpl.
    repeat split; try lia; discriminate. }
  split.
  - apply (C9_storage_faults req_k1 (world0 (env_fault_at 0) always_ok) Hv).
    vm_compute. reflexivity.
  - apply (proj1 (proj2 (C9_storage_faults req_k1
                           (world0 (env_fault_at 1) always_ok) Hv))
             (set_db_calls 1 (world0 (env_fault_at 1) always_ok))
             (ErrDriver "connection reset by peer")
             (snd (fst (repository.Create (fresh req_k1)
                          (set_db_calls 1
                             (world0 (env_fault_at 1) always_ok)))))).
    + vm_compute. reflexivity.
    + vm_compute. reflexivity.
Defined.

(** Against C9 as claimed: the gateway accepts the payment at the first
    attempt and the connection is lost at the update statement. The caller
    gets the plain SUCCESS outcome while the stored record is still
    INITIATED with retry count 0. *)
Lemma C9_counterexample :
  valid req_k1 /\
  db_env (world0 (env_fault_at 2) always_ok) 2 = Fault "connection reset by peer" /\
  fst (CreatePayment req_k1 (world0 (env_fault_at 2) always_ok))
  = Ok {| PaymentID := "00000000-0000-4000-8000-0000000003e8";
          resp_Status := StatusSuccess;
          resp_Amount := 10000;
          resp_Currency := "INR";
          resp_CreatedAt := 1700000000 |} /\
  db_calls (snd (CreatePayment req_k1 (world0 (env_fault_at 2) always_ok)))
  = 3%nat /\
  rows (snd (CreatePayment req_k1 (world0 (env_fault_at 2) always_ok)))
  = [pending_k1] /\
  Status pending_k1 = StatusInitiated.
Proof.
  split.
  { unfold valid, MinAmount, MaxAmount. simpl.
    repeat split; try lia; discriminate. }
  split; [reflexivity|].
  split; [vm_compute; reflexivity|].
  split; [vm_compute; reflexivity|].
  split; [vm_compute; reflexivity | reflexivity].
Qed.

(* ================================================================== *)
(** ** Scenarios *)

(** A first submission against a gateway that accepts at once: SUCCESS,
    the amount and currency of the request, and one attempt on record. *)
Example scenario_first_submission :
  fst (CreatePayment req_k1 (world0 quiet always_ok))
  = Ok {| PaymentID := "00000000-0000-4000-8000-0000000003e8";
          resp_Status := "SUCCESS"; resp_Amount := 10000;
          resp_Currency := "INR"; resp_CreatedAt := 1700000000 |} /\
  rows world_after_k1 = [stored_k1] /\ RetryCount stored_k1 = 1 /\
  attempts world_after_k1 = 1%nat.
Proof. repeat split; vm_compute; reflexivity. Qed.

(** A negative amount: a validation error and an empty table. *)
Example scenario_negative_amount :
  CreatePayment (mkRequest "k3" (-500) "INR" "u1") (world0 quiet always_ok)
  = (Err (errorString "amount must be at least 1"), world0 quiet always_ok) /\
  rows (world0 quiet always_ok) = [].
Proof. split; vm_compute; reflexivity. Qed.

(** The id printed in an outcome is read back by GetPayment. *)
Example scenario_fetch_after_submission :
  uuid_Parse (uuid_String id_k1) = Some id_k1 /\
  fst (GetPayment (uuid_String id_k1) world_after_k1)
  = Ok (toPaymentResponse stored_k1).
Proof. split; vm_compute; reflexivity. Qed.

(* ================================================================== *)
(** ** More on the retry loop *)

Lemma first_ok_Some (gw : nat -> bool) (n : nat) :
  forall (from k : nat),
  first_ok gw from n = Some k <->
  (k < n)%nat /\ gw (from + k)%nat = false /\
  forall j, (j < k)%nat -> gw (from + j)%nat = true.
Proof.
  induction n as [|n IH]; intros from k; simpl.
  - split; [discriminate | intros [H _]; lia].
  - destruct (gw from) eqn:Hg.
    + destruct (first_ok gw (S from) n) as [k'|] eqn:Hf.
      * apply IH in Hf. destruct Hf as [Hk [Hok Hbefore]]. split.
        -- intros H. injection H as <-.
           split; [lia|]. split.
           ++ rewrite Nat.add_succ_r. exact Hok.
           ++ intros [|j] Hj; [rewrite Nat.add_0_r; exact Hg|].
              rewrite Nat.add_succ_r. apply Hbefore. lia.
        -- intros [Hk2 [Hok2 Hbefore2]]. f_equal.
           destruct k as [|k]; [rewrite Nat.add_0_r in Hok2; congruence|].
           f_equal.
           destruct (Nat.lt_trichotomy k k') as [Hlt|[Heq|Hgt]]; [|exact (eq_sym Heq)|].
           ++ specialize (Hbefore k Hlt).
              rewrite Nat.add_succ_r in Hok2. simpl in Hbefore. congruence.
           ++ specialize (Hbefore2 (S k') ltac:(lia)).
              rewrite Nat.add_succ_r in Hbefore2. simpl in Hok. congruence.
      * split; [discriminate|]. intros [Hk [Hok Hbefore]]. exfalso.
        destruct k as [|k]; [rewrite Nat.add_0_r in Hok; congruence|].
        assert (Hs : first_ok gw (S from) n = Some k).
        { apply IH. split; [lia|]. split.
          - rewrite Nat.add_succ_r in Hok. exact Hok.
          - intros j Hj. specialize (Hbefore (S j) ltac:(lia)).
            rewrite Nat.add_succ_r in Hbefore. exact Hbefore. }
        congruence.
    + split.
      * intros H. injection H as <-. split; [lia|]. split.
        -- rewrite Nat.add_0_r. exact Hg.
        -- intros j Hj. lia.
      * intros [_ [Hok Hbefore]]. f_equal.
        destruct k as [|k]; [reflexivity|].
        specialize (Hbefore 0%nat ltac:(lia)).
        rewrite Nat.add_0_r in Hbefore. congruence.
Qed.

Lemma first_ok_None (gw : nat -> bool) (n : nat) :
  forall from : nat,
  first_ok gw from n = None <->
  forall j, (j < n)%nat -> gw (from + j)%nat = true.
Proof.
  induction n as [|n IH]; intros from; simpl.
  - split; [intros _ j Hj; lia | reflexivity].
  - destruct (gw from) eqn:Hg.
    + destruct (first_ok gw (S from) n) as [k|] eqn:Hf.
      * split; [discriminate|]. intros H. exfalso.
        assert (Hn : first_ok gw (S from) n = None).
        { apply IH. intros j Hj. specialize (H (S j) ltac:(lia)).
          rewrite Nat.add_succ_r in H. exact H. }
        congruence.
      * split; [|reflexivity]. intros _ [|j] Hj.
        -- rewrite Nat.add_0_r. exact Hg.
        -- rewrite Nat.add_succ_r. apply (proj1 (IH (S from)) Hf). lia.
    + split; [discriminate|]. intros H.
      specialize (H 0%nat ltac:(lia)). rewrite Nat.add_0_r in H. congruence.
Qed.

(** The loop, read off the first attempt at which the gateway accepts. *)
Lemma retry_loop_first_ok (n : nat) :
  forall (i : Z) (p : Payment) (l : option error) (w : World)
         (e : option error) (p' : Payment) (w' : World),
  retry_loop n i p l w = (e, p', w') -> ID p <> uuid_Nil ->
  match first_ok (gateway w) (attempts w) n with
  | Some k =>
      e = None /\ RetryCount p' = i + Z.of_nat k + 1 /\
      Status p' = StatusSuccess /\ attempts w' = (attempts w + k + 1)%nat
  | None =>
      (exists msg, e = Some (errorString msg)) /\
      attempts w' = (attempts w + n)%nat /\
      Status p' = Status p /\
      RetryCount p' = match n with
                      | O => RetryCount p
                      | S _ => i + Z.of_nat n
                      end
  end.
Proof.
  induction n as [|n IH]; intros i p l w e p' w' H Hnn.
  - simpl in *. injection H as <- <- <-.
    split; [eauto|]. split; [lia|]. split; reflexivity.
  - simpl first_ok. destruct (gateway w (attempts w)) eqn:Hg.
    + rewrite (loop_fail_step n i p l w Hg) in H.
      apply IH in H; [|exact Hnn].
      assert (Hv : forall v, v = (if i <? MaxRetries - 1
                    then time_Sleep (backoff i) (set_attempts (S (attempts w)) w)
                    else set_attempts (S (attempts w)) w) ->
                gateway v = gateway w /\ attempts v = S (attempts w)).
      { intros v ->. destruct (i <? MaxRetries - 1); auto. }
      destruct (Hv _ eq_refl) as [Hgw Hat]. rewrite Hgw, Hat in H.
      destruct (first_ok (gateway w) (S (attempts w)) n) as [k|].
      * destruct H as [-> [Hrc [Hst Hatt]]].
        split; [reflexivity|]. split; [rewrite Hrc; lia|].
        split; [exact Hst | rewrite Hatt; lia].
      * destruct H as [Hmsg [Hatt [Hst Hrc]]].
        split; [exact Hmsg|]. split; [rewrite Hatt; lia|].
        split; [exact Hst|].
        rewrite Hrc. destruct n as [|n]; [simpl; lia | lia].
    + rewrite (loop_success_step n i p l w Hg) in H.
      match type of H with
      | context [repository.Update ?q ?v] =>
          destruct (repository.Update q v) as [[e1 q1] v1] eqn:HU
      end.
      injection H as <- <- <-.
      apply Update_inv in HU; [|exact Hnn].
      destruct HU as [-> [F _]].
      split; [reflexivity|]. split; [simpl; lia|]. split; [reflexivity|].
      rewrite (frame_attempts _ _ F). simpl. lia.
Qed.




(** X2. The loop returns an error exactly when the gateway refuses all
    MaxRetries attempts, and the error then reads "payment failed after 3
    retries: payment gateway timeout"; it returns no error exactly when one
    of the attempts is accepted. *)
Theorem X2_loop_fails_iff_all_attempts_fail (p : Payment) (w : World)
    (e : option error) (p' : Payment) (w' : World) :
  ID p <> uuid_Nil ->
  processPaymentWithRetry p w = (e, p', w') ->
  (e = Some (errorString
               "payment failed after 3 retries: payment gateway timeout")
   <-> forall j, (j < Z.to_nat MaxRetries)%nat ->
                 gateway w (attempts w + j)%nat = true) /\
  (e = None
   <-> exists j, (j < Z.to_nat MaxRetries)%nat /\
                 gateway w (attempts w + j)%nat = false) /\
  (e = None \/
   e = Some (errorString
               "payment failed after 3 retries: payment gateway timeout")).
Proof.
  intros Hnn HL.
  assert (Hall : (forall j, (j < Z.to_nat MaxRetries)%nat ->
                            gateway w (attempts w + j)%nat = true) ->
                 e = Some (errorString
                   "payment failed after 3 retries: payment gateway timeout")).
  { intros H. rewrite loop_all_fail in HL.
    - injection HL as <- _ _. reflexivity.
    - intros j Hj. rewrite Nat.add_comm. apply H. exact Hj. }
  unfold processPaymentWithRetry in HL.
  pose proof (retry_loop_first_ok _ _ _ _ _ _ _ _ HL Hnn) as HF.
  destruct (first_ok (gateway w) (attempts w) (Z.to_nat MaxRetries))
    as [k|] eqn:Hfo.
  - destruct HF as [-> _]. apply first_ok_Some in Hfo.
    destruct Hfo as [Hk [Hok _]].
    split; [|split; [|left; reflexivity]].
    + split; [discriminate|]. intros H. specialize (H k Hk). congruence.
    + split; [|reflexivity]. intros _. exists k. auto.
  - pose proof (proj1 (first_ok_None _ _ _) Hfo) as Hfail.
    rewrite (Hall Hfail).
    split; [|split; [|right; reflexivity]].
    + split; [intros _; exact Hfail | reflexivity].
    + split; [discriminate|]. intros [j [Hj Hgw]].
      specialize (Hfail j Hj). congruence.
Qed.

Lemma X2_loop_fails_iff_all_attempts_fail_witness :
  fst (fst (processPaymentWithRetry pending_k1 (world_pending always_fail)))
  = Some (errorString
            "payment failed after 3 retries: payment gateway timeout") /\
  fst (fst (processPaymentWithRetry pending_k1
              (world_pending (fails_first 2)))) = None.
Proof.
  assert (Hnn : ID pending_k1 <> uuid_Nil) by (vm_compute; discriminate).
  split.
  - destruct (processPaymentWithRetry pending_k1 (world_pending always_fail))
      as [[e p'] w'] eqn:HL. simpl.
    apply (X2_loop_fails_iff_all_attempts_fail _ _ _ _ _ Hnn HL).
    intros j _. reflexivity.
  - destruct (processPaymentWithRetry pending_k1
                (world_pending (fails_first 2))) as [[e p'] w'] eqn:HL. simpl.
    apply (X2_loop_fails_iff_all_attempts_fail _ _ _ _ _ Hnn HL).
    exists 2%nat. split; [unfold MaxRetries; simpl; lia | reflexivity].
Defined.

(** The count of the record against the attempts made. *)
Lemma loop_count_attempts (p : Payment) (w : World)
    (e : option error) (p' : Payment) (w' : World) :
  ID p <> uuid_Nil ->
  processPaymentWithRetry p w = (e, p', w') ->
  1 <= RetryCount p' <= MaxRetries /\
  attempts w' = (attempts w + Z.to_nat (RetryCount p'))%nat.
Proof.
  intros Hnn HL. unfold processPaymentWithRetry in HL.
  pose proof (retry_loop_first_ok _ _ _ _ _ _ _ _ HL Hnn) as HF.
  destruct (first_ok (gateway w) (attempts w) (Z.to_nat MaxRetries))
    as [k|] eqn:Hfo.
  - apply first_ok_Some in Hfo. destruct Hfo as [Hk _].
    destruct HF as [_ [Hrc [_ Hat]]].
    change (Z.to_nat MaxRetries) with 3%nat in Hk. unfold MaxRetries.
    split; [lia|]. rewrite Hat, Hrc. lia.
  - destruct HF as [_ [Hat [_ Hrc]]].
    change (Z.to_nat MaxRetries) with 3%nat in *. unfold MaxRetries.
    simpl in Hrc. split; [lia|]. rewrite Hat, Hrc. reflexivity.
Qed.

(** X3. Whatever the gateway does, the record leaves the loop with a
    retryCount between 1 and MaxRetries, and that count is the number of
    attempts the loop made. *)
Theorem X3_retry_count_counts_attempts (p : Payment) (w : World)
    (e : option error) (p' : Payment) (w' : World) :
  ID p <> uuid_Nil ->
  processPaymentWithRetry p w = (e, p', w') ->
  1 <= RetryCount p' <= MaxRetries /\
  attempts w' = (attempts w + Z.to_nat (RetryCount p'))%nat.
Proof.
  intros Hnn HL. unfold processPaymentWithRetry in HL.
  pose proof (retry_loop_first_ok _ _ _ _ _ _ _ _ HL Hnn) as HF.
  destruct (first_ok (gateway w) (attempts w) (Z.to_nat MaxRetries))
    as [k|] eqn:Hfo.
  - apply first_ok_Some in Hfo. destruct Hfo as [Hk _].
    destruct HF as [_ [Hrc [_ Hat]]].
    change (Z.to_nat MaxRetries) with 3%nat in Hk. unfold MaxRetries.
    split; [lia|]. rewrite Hat, Hrc. lia.
  - destruct HF as [_ [Hat [_ Hrc]]].
    change (Z.to_nat MaxRetries) with 3%nat in *. unfold MaxRetries.
    simpl in Hrc. split; [lia|]. rewrite Hat, Hrc. reflexivity.
Qed.

Lemma X3_retry_count_counts_attempts_witness :
  RetryCount (snd (fst (processPaymentWithRetry pending_k1
                          (world_pending (fails_first 1))))) = 2 /\
  attempts (snd (processPaymentWithRetry pending_k1
                   (world_pending (fails_first 1)))) = 2%nat.
Proof.
  destruct (processPaymentWithRetry pending_k1 (world_pending (fails_first 1)))
    as [[e p'] w'] eqn:HL.
  destruct (X3_retry_count_counts_attempts pending_k1
              (world_pending (fails_first 1)) e p' w'
              ltac:(vm_compute; discriminate) HL) as [_ Hat].
  assert (Hrc : RetryCount p' = 2).
  { change p' with (snd (fst (e, p', w'))). rewrite <- HL.
    vm_compute. reflexivity. }
  simpl. split; [exact Hrc|]. rewrite Hat, Hrc. reflexivity.
Defined.

(** The time the loop sleeps and the statements it sends. *)
Lemma loop_cost (p : Payment) (w : World) (e : option error) (p' : Payment)
    (w' : World) :
  processPaymentWithRetry p w = (e, p', w') ->
  clock w <= clock w' <= clock w + 350 * Millisecond /\
  (db_calls w <= db_calls w' <= S (db_calls w))%nat.
Proof.
  unfold processPaymentWithRetry. change (Z.to_nat MaxRetries) with 3%nat.
  assert (Hok : forall n i q l v e1 q1 v1,
             gateway v (attempts v) = false ->
             retry_loop (S n) i q l v = (e1, q1, v1) ->
             clock v1 = clock v + 50 * Millisecond /\
             db_calls v1 = S (db_calls v)).
  { intros n i q l v e1 q1 v1 Hg H.
    rewrite (loop_success_step n i q l v Hg) in H.
    match type of H with
    | context [repository.Update ?a ?b] =>
        pose proof (Update_frame a b) as F;
        destruct (repository.Update a b) as [[e2 q2] v2]
    end.
    injection H as _ _ <-. simpl in F.
    rewrite (frame_clock _ _ F), (frame_calls _ _ F). auto. }
  intros H.
  destruct (gateway w (attempts w)) eqn:G0.
  2:{ destruct (Hok _ _ _ _ _ _ _ _ G0 H) as [Hc Hd].
      rewrite Hc, Hd. unfold Millisecond. lia. }
  rewrite (loop_fail_step _ _ _ _ _ G0) in H.
  change (0 <? MaxRetries - 1) with true in H. cbv iota in H.
  set (w1 := time_Sleep (backoff 0) (set_attempts (S (attempts w)) w)) in *.
  destruct (gateway w1 (attempts w1)) eqn:G1.
  2:{ destruct (Hok _ _ _ _ _ _ _ _ G1 H) as [Hc Hd].
      rewrite Hc, Hd. unfold w1, backoff, Millisecond. simpl. lia. }
  rewrite (loop_fail_step _ _ _ _ _ G1) in H.
  change (0 + 1 <? MaxRetries - 1) with true in H. cbv iota in H.
  set (w2 := time_Sleep (backoff (0 + 1)) (set_attempts (S (attempts w1)) w1))
    in *.
  destruct (gateway w2 (attempts w2)) eqn:G2.
  2:{ destruct (Hok _ _ _ _ _ _ _ _ G2 H) as [Hc Hd].
      rewrite Hc, Hd. unfold w2, w1, backoff, Millisecond. simpl. lia. }
  rewrite (loop_fail_step _ _ _ _ _ G2) in H.
  change (0 + 1 + 1 <? MaxRetries - 1) with false in H. cbv iota in H.
  simpl in H. injection H as _ _ <-.
  unfold w2, w1, backoff, Millisecond. simpl. lia.
Qed.

(** X4. One call of CreatePayment makes at most MaxRetries attempts, sends
    at most three statements to the store (lookup, insert, one update) and
    sleeps at most 350 ms in all (100 ms and 200 ms of backoff and 50 ms
    of processing); none of the three ever decreases. *)
Theorem X4_submission_cost (req : CreatePaymentRequest) (w : World) :
  (attempts w <= attempts (snd (CreatePayment req w))
   <= attempts w + Z.to_nat MaxRetries)%nat /\
  (db_calls w <= db_calls (snd (CreatePayment req w)) <= db_calls w + 3)%nat /\
  clock w <= clock (snd (CreatePayment req w))
  <= clock w + 350 * Millisecond.
Proof.
  change (Z.to_nat MaxRetries) with 3%nat.
  assert (Hms : 0 <= 350 * Millisecond) by (unfold Millisecond; lia).
  destruct (validatePaymentRequest req) as [e|] eqn:Hval.
  { rewrite (CreatePayment_invalid req w e Hval). simpl. lia. }
  apply validate_None_iff in Hval.
  destruct (repository.GetByIdempotencyKey (req_IdempotencyKey req) w)
    as [[[existing|]|e] w1] eqn:HG;
    pose proof (GetByIdempotencyKey_frame _ _ _ _ HG) as [A1 A2 A3 A4 A5 A6].
  - rewrite (CreatePayment_existing req w w1 existing Hval HG). simpl. lia.
  - destruct (repository.Create (fresh req) w1) as [[[e|] p1] w2] eqn:HC;
      destruct (Create_inv _ _ _ _ _ HC eq_refl)
        as [[B1 B2 B3 B4 B5 B6] [_ [Hnn _]]].
    + rewrite (CreatePayment_create_failed req w w1 w2 e p1 Hval HG HC).
      simpl. lia.
    + rewrite (CreatePayment_created req w w1 w2 p1 Hval HG HC).
      destruct (processPaymentWithRetry p1 w2) as [[e3 p3] w3] eqn:HL.
      destruct (loop_cost _ _ _ _ _ HL) as [Hclock Hcalls].
      destruct (loop_count_attempts p1 w2 e3 p3 w3 Hnn HL)
        as [Hrc Hat].
      unfold processPaymentWithRetry in HL.
      destruct (retry_loop_inv _ _ _ _ _ _ _ _ HL Hnn) as [_ [_ [_ [_ Hres]]]].
      destruct e3 as [err|].
      * destruct Hres as [_ [_ Hsame]].
        match goal with
        | |- context [repository.Update ?a ?b] =>
            pose proof (Update_frame a b) as [C1 C2 C3 C4 C5 C6];
            destruct (repository.Update a b) as [[e4 p4] w4]
        end.
        simpl in *. unfold MaxRetries, Millisecond in *. lia.
      * destruct Hres as [_ Hone]. simpl. unfold MaxRetries, Millisecond in *. lia.
  - rewrite (CreatePayment_lookup_failed req w w1 e Hval HG). simpl. lia.
Qed.

(* ================================================================== *)
(** ** The constraints of the table are kept *)

Lemma existsb_false_not_in {B : Type} (f : Payment -> B)
    (eqb : B -> Payment -> bool) (b : B) (tbl : list Payment) :
  (forall q, eqb b q = false -> f q <> b) ->
  existsb (eqb b) tbl = false -> ~ In b (map f tbl).
Proof.
  intros Hf. induction tbl as [|a tbl IH]; simpl; [tauto|].
  intros H. apply orb_false_iff in H. destruct H as [Ha Ht].
  intros [Heq|Hin]; [exact (Hf a Ha Heq) | exact (IH Ht Hin)].
Qed.

Lemma table_ok_insert (tbl : list Payment) (q : Payment) :
  table_ok tbl -> violated q tbl = None -> table_ok (tbl ++ [q])%list.
Proof.
  intros [Hid Hkey] Hv. apply violated_None in Hv. destruct Hv as [Hi Hk].
  unfold table_ok. rewrite !map_app. simpl. split.
  - apply NoDup_app; [exact Hid | repeat constructor; simpl; tauto|].
    intros a Ha [<-|[]]. revert Ha.
    apply (existsb_false_not_in ID same_id); [|exact Hi].
    intros x Hx. apply same_id_false. exact Hx.
  - apply NoDup_app; [exact Hkey | repeat constructor; simpl; tauto|].
    intros a Ha [<-|[]]. revert Ha.
    apply (existsb_false_not_in IdempotencyKey same_key); [|exact Hk].
    intros x Hx Heq. apply same_key_true in Heq. congruence.
Qed.

Lemma grows_table_ok (t t' : list Payment) :
  grows t t' -> table_ok t -> table_ok t'.
Proof.
  induction 1 as [|t1 t2 q _ IH Hv]; [auto|].
  intros Hok. apply table_ok_insert; [exact (IH Hok) | exact Hv].
Qed.

Lemma grows_trans (t1 t2 t3 : list Payment) :
  grows t1 t2 -> grows t2 t3 -> grows t1 t3.
Proof.
  intros H12 H23. induction H23; [exact H12|].
  apply grows_insert; [apply IHgrows; exact H12 | assumption].
Qed.

Lemma overwrite_ids (p : Payment) (tbl : list Payment) :
  map ID (overwrite p tbl) = map ID tbl.
Proof.
  unfold overwrite. induction tbl as [|a tbl IH]; simpl; [reflexivity|].
  rewrite IH. f_equal.
  destruct (same_id (ID p) a) eqn:Ha; [|reflexivity].
  apply same_id_true in Ha. congruence.
Qed.

Lemma overwrite_keys (p : Payment) (tbl : list Payment) :
  (forall q, In q tbl -> ID q = ID p -> IdempotencyKey q = IdempotencyKey p) ->
  map IdempotencyKey (overwrite p tbl) = map IdempotencyKey tbl.
Proof.
  unfold overwrite. induction tbl as [|a tbl IH]; simpl; [reflexivity|].
  intros H. rewrite IH by (intros q Hq; apply H; right; exact Hq). f_equal.
  destruct (same_id (ID p) a) eqn:Ha; [|reflexivity].
  apply same_id_true in Ha. symmetry. apply H; [left; reflexivity | exact Ha].
Qed.

Lemma existsb_same_id_in (i : UUID) (tbl : list Payment) :
  existsb (same_id i) tbl = true <-> In i (map ID tbl).
Proof.
  rewrite existsb_exists, in_map_iff. split.
  - intros [q [Hq Hs]]. exists q. split; [apply same_id_true; exact Hs | exact Hq].
  - intros [q [Hs Hq]]. exists q. split; [exact Hq | apply same_id_true; exact Hs].
Qed.

Lemma step_keeps_constraints (i : UUID) (k : string) (t t' : list Payment) :
  step_rows i k t t' -> owns i k t -> table_ok t ->
  owns i k t' /\ table_ok t'.
Proof.
  intros Hs [Hin Hown] Hok. destruct Hs as [tbl q Hv|tbl p Hp Hk].
  - split; [|apply table_ok_insert; assumption]. split.
    + rewrite existsb_app, Hin. reflexivity.
    + intros x Hx Hid. apply in_app_or in Hx. destruct Hx as [Hx|[<-|[]]].
      * exact (Hown x Hx Hid).
      * exfalso. apply violated_None in Hv. destruct Hv as [Hv _].
        rewrite Hid in Hv. congruence.
  - assert (Hkeys : map IdempotencyKey (overwrite p tbl)
                    = map IdempotencyKey tbl).
    { apply overwrite_keys. intros x Hx Hid. rewrite Hk. apply Hown; congruence. }
    split; [split|].
    + apply existsb_same_id_in. rewrite overwrite_ids.
      apply existsb_same_id_in. exact Hin.
    + intros x Hx Hid. unfold overwrite in Hx. apply in_map_iff in Hx.
      destruct Hx as [y [Hy Hyin]].
      destruct (same_id (ID p) y); [congruence|].
      subst x. exact (Hown y Hyin Hid).
    + destruct Hok as [H1 H2]. split.
      * rewrite overwrite_ids. exact H1.
      * rewrite Hkeys. exact H2.
Qed.

Lemma evolves_keeps_constraints (i : UUID) (k : string) (t t' : list Payment) :
  evolves i k t t' -> owns i k t -> table_ok t ->
  owns i k t' /\ table_ok t'.
Proof.
  induction 1 as [|t1 t2 t3 _ IH Hs]; [auto|].
  intros Hown Hok. destruct (IH Hown Hok) as [Hown2 Hok2].
  exact (step_keeps_constraints i k t2 t3 Hs Hown2 Hok2).
Qed.

Lemma arrive_grows (w : World) (o : option string) (w' : World) :
  arrive w = (o, w') -> grows (rows w) (rows w').
Proof.
  unfold arrive. intros H.
  destruct (db_env w (db_calls w)) as [|msg|q].
  - injection H as <- <-. apply grows_refl.
  - injection H as <- <-. apply grows_refl.
  - destruct (violated q (rows w)) eqn:Hv; injection H as <- <-; simpl.
    + apply grows_refl.
    + apply grows_insert; [apply grows_refl | exact Hv].
Qed.

(** What Create does to the table. *)
Lemma Create_rows (p : Payment) (w : World) (e : option error) (p' : Payment)
    (w' : World) :
  repository.Create p w = (e, p', w') ->
  match e with
  | None => exists t1, grows (rows w) t1 /\ violated p' t1 = None /\
                       rows w' = (t1 ++ [p'])%list
  | Some _ => grows (rows w) (rows w')
  end.
Proof.
  unfold repository.Create, gorm_Create. intros H.
  destruct (BeforeCreate p w) as [p0 w0] eqn:HB.
  assert (Hr : rows w0 = rows w).
  { unfold BeforeCreate, uuid_New in HB.
    destruct (N.eqb (ID p) uuid_Nil); injection HB as <- <-; reflexivity. }
  destruct (arrive w0) as [o w1] eqn:Ha.
  apply arrive_grows in Ha. rewrite Hr in Ha.
  destruct o as [msg|].
  - injection H as <- <- <-. exact Ha.
  - match type of H with
    | context [violated ?x (rows w1)] =>
        destruct (violated x (rows w1)) eqn:Hv
    end; injection H as <- <- <-.
    + exact Ha.
    + eexists. split; [exact Ha|]. split; [exact Hv | reflexivity].
Qed.

Lemma CreatePayment_table_ok (req : CreatePaymentRequest) (w : World)
    (r : result PaymentResponse) (w' : World) :
  CreatePayment req w = (r, w') -> table_ok (rows w) -> table_ok (rows w').
Proof.
  intros H Hok. apply CreatePayment_cases in H.
  destruct H as [[e [_ [_ ->]]]
                |[[_ [msg [Ha _]]]
                 |[[_ [q [Ha _]]]
                  |[[_ [w1 [e [p1 [Ha [_ [HC _]]]]]]]
                   |[_ [w1 [p1 [w2 [q [Ha [_ [HC [_ [_ [_ [_ Hev]]]]]]]]]]]]]]]].
  - exact Hok.
  - exact (grows_table_ok _ _ (arrive_grows _ _ _ Ha) Hok).
  - exact (grows_table_ok _ _ (arrive_grows _ _ _ Ha) Hok).
  - apply Create_rows in HC.
    exact (grows_table_ok _ _ HC (grows_table_ok _ _ (arrive_grows _ _ _ Ha) Hok)).
  - destruct (Create_inv _ _ _ _ _ HC eq_refl) as [_ [Hsf _]].
    apply Create_rows in HC. destruct HC as [t1 [Hg [Hv Hrows]]].
    pose proof (grows_table_ok _ _ Hg
                  (grows_table_ok _ _ (arrive_grows _ _ _ Ha) Hok)) as Hok1.
    rewrite Hrows in Hev.
    apply (evolves_keeps_constraints _ _ _ _ Hev).
    + split.
      * rewrite existsb_app. simpl.
        rewrite (proj2 (same_id_true (ID p1) p1) eq_refl).
        rewrite orb_true_r. reflexivity.
      * intros x Hx Hid. apply in_app_or in Hx. destruct Hx as [Hx|[<-|[]]].
        -- exfalso. apply violated_None in Hv. destruct Hv as [Hv _].
           assert (Hin : existsb (same_id (ID p1)) t1 = true).
           { apply existsb_exists. exists x.
             split; [exact Hx | apply same_id_true; exact Hid]. }
           congruence.
        -- apply (sf_IdempotencyKey _ _ Hsf).
    + apply table_ok_insert; assumption.
Qed.

Lemma exec_table_ok (o : op) (w : World) :
  table_ok (rows w) -> table_ok (rows (exec o w)).
Proof.
  intros Hok. destruct o as [req|paymentID]; simpl.
  - destruct (CreatePayment req w) as [r w'] eqn:H.
    exact (CreatePayment_table_ok req w r w' H Hok).
  - destruct (GetPayment paymentID w) as [r w'] eqn:H. simpl.
    apply GetPayment_cases in H. destruct H as [->|[o Ha]]; [exact Hok|].
    exact (grows_table_ok _ _ (arrive_grows _ _ _ Ha) Hok).
Qed.

Lemma NoDup_map_inj {A B : Type} (f : A -> B) (l : list A) (x y : A) :
  NoDup (map f l) -> In x l -> In y l -> f x = f y -> x = y.
Proof.
  induction l as [|a l IH]; simpl; [tauto|].
  intros Hnd Hx Hy Hf. apply NoDup_cons_iff in Hnd. destruct Hnd as [Hni Hnd].
  destruct Hx as [->|Hx], Hy as [->|Hy].
  - reflexivity.
  - exfalso. apply Hni. rewrite Hf. apply in_map. exact Hy.
  - exfalso. apply Hni. rewrite <- Hf. apply in_map. exact Hx.
  - exact (IH Hnd Hx Hy Hf).
Qed.

(** X5. If no two rows of the table share an id or an idempotency key,
    this is still so after any run of submissions and fetches (concurrent
    inserts and store faults included): there is never more than one
    record for an idempotency key, nor for an id. *)
Theorem X5_one_record_per_key (w : World) (ops : list op) :
  table_ok (rows w) ->
  table_ok (rows (run ops w)) /\
  forall p q, In p (rows (run ops w)) -> In q (rows (run ops w)) ->
              (IdempotencyKey p = IdempotencyKey q \/ ID p = ID q) -> p = q.
Proof.
  intros Hok.
  assert (H : table_ok (rows (run ops w))).
  { revert w Hok. unfold run.
    induction ops as [|o ops IH]; intros w Hok; simpl; [exact Hok|].
    apply IH. apply exec_table_ok. exact Hok. }
  split; [exact H|]. destruct H as [Hid Hkey].
  intros p q Hp Hq [Heq|Heq].
  - exact (NoDup_map_inj IdempotencyKey _ p q Hkey Hp Hq Heq).
  - exact (NoDup_map_inj ID _ p q Hid Hp Hq Heq).
Qed.

Lemma X5_one_record_per_key_witness :
  table_ok (rows (run [Submit req_k1; Submit req_k1_other;
                       Submit (mkRequest "k2" 7 "EUR" "u3");
                       Fetch "no-such-id"; Submit req_k1]
                   (world0 env_race always_ok))).
Proof.
  apply (X5_one_record_per_key (world0 env_race always_ok)).
  split; constructor.
Defined.

(* ================================================================== *)
(** ** The repository *)

Lemma Create_same_fields (p : Payment) (w : World) (e : option error)
    (p' : Payment) (w' : World) :
  repository.Create p w = (e, p', w') ->
  same_fields p p' /\ (ID p <> uuid_Nil -> ID p' = ID p) /\
  db_calls w' = S (db_calls w).
Proof.
  unfold repository.Create, gorm_Create, BeforeCreate, uuid_New. intros H.
  assert (Hsf : forall q c, same_fields p q -> 
            same_fields p
              (if UpdatedAt (if CreatedAt q =? 0 then with_CreatedAt c q else q)
                  =? 0
               then with_UpdatedAt c
                      (if CreatedAt q =? 0 then with_CreatedAt c q else q)
               else if CreatedAt q =? 0 then with_CreatedAt c q else q) /\
            ID (if UpdatedAt (if CreatedAt q =? 0 then with_CreatedAt c q else q)
                  =? 0
               then with_UpdatedAt c
                      (if CreatedAt q =? 0 then with_CreatedAt c q else q)
               else if CreatedAt q =? 0 then with_CreatedAt c q else q) = ID q).
  { intros q c [S1 S2 S3 S4 S5 S6 S7].
    destruct (CreatedAt q =? 0); simpl;
      destruct (UpdatedAt q =? 0); simpl;
      (split; [constructor; assumption | reflexivity]). }
  destruct (N.eqb_spec (ID p) uuid_Nil) as [Hnil|Hnn].
  - destruct (Hsf (with_ID (uuid_stamp (uuid_rand w (uuid_calls w))) p)
                (clock (set_uuid_calls (S (uuid_calls w)) w)))
      as [Hs _]; [constructor; reflexivity|].
    destruct (arrive (set_uuid_calls (S (uuid_calls w)) w)) as [o w1] eqn:Ha.
    apply arrive_inv in Ha. destruct Ha as [F _].
    pose proof (frame_calls _ _ F) as Hc. simpl in Hc.
    destruct o as [msg|].
    + injection H as <- <- <-. split; [exact Hs|]. split; [tauto | exact Hc].
    + match type of H with
      | context [violated ?x (rows w1)] => destruct (violated x (rows w1))
      end; injection H as <- <- <-;
        (split; [exact Hs|]; split; [tauto | exact Hc]).
  - destruct (Hsf p (clock w)) as [Hs Hi]; [constructor; reflexivity|].
    destruct (arrive w) as [o w1] eqn:Ha.
    apply arrive_inv in Ha. destruct Ha as [F _].
    pose proof (frame_calls _ _ F) as Hc.
    destruct o as [msg|].
    + injection H as <- <- <-. split; [exact Hs|]. split; [intros _; exact Hi | exact Hc].
    + match type of H with
      | context [violated ?x (rows w1)] => destruct (violated x (rows w1))
      end; injection H as <- <- <-;
        (split; [exact Hs|]; split; [intros _; exact Hi | exact Hc]).
Qed.



(** X7. Create never stores a second record under an idempotency key that
    is already in the table: it returns an error, which is the
    unique-violation error unless the statement itself faulted, and without
    a concurrent insert the table is left as it was. *)
Theorem X7_create_rejects_stored_key (p : Payment) (w : World)
    (e : option error) (p' : Payment) (w' : World) :
  existsb (same_key (IdempotencyKey p)) (rows w) = true ->
  repository.Create p w = (e, p', w') ->
  e <> None /\
  ((forall msg, db_env w (db_calls w) <> Fault msg) ->
   exists index, e = Some (ErrUniqueViolation index)) /\
  (db_env w (db_calls w) = Quiet -> rows w' = rows w) /\
  grows (rows w) (rows w').
Proof.
  intros Hin HC.
  destruct (Create_same_fields _ _ _ _ _ HC) as [Hsf _].
  pose proof (Create_rows _ _ _ _ _ HC) as Hrows.
  assert (Hne : e <> None).
  { intros ->. destruct Hrows as [t1 [Hg [Hv _]]].
    apply violated_None in Hv. destruct Hv as [_ Hk].
    rewrite (sf_IdempotencyKey _ _ Hsf) in Hk.
    assert (Hin1 : existsb (same_key (IdempotencyKey p)) t1 = true).
    { clear Hk. induction Hg as [|t0 t2 q _ IH _]; [exact Hin|].
      rewrite existsb_app, (IH Hin). reflexivity. }
    congruence. }
  split; [exact Hne|].
  destruct e as [err|]; [|contradiction]. split; [|split; [|exact Hrows]].
  - intros Hnf. revert HC.
    unfold repository.Create, gorm_Create.
    destruct (BeforeCreate p w) as [p0 w0] eqn:HB.
    assert (Hw0 : db_env w0 (db_calls w0) = db_env w (db_calls w)).
    { unfold BeforeCreate, uuid_New in HB.
      destruct (N.eqb (ID p) uuid_Nil); injection HB as <- <-; reflexivity. }
    destruct (arrive w0) as [o w1] eqn:Ha.
    destruct o as [msg|].
    + apply arrive_inv in Ha. destruct Ha as [_ [_ [_ [_ [_ Hs]]]]].
      destruct (Hs msg eq_refl) as [Hf _]. rewrite Hw0 in Hf.
      destruct (Hnf msg Hf).
    + match goal with
      | |- context [violated ?x (rows w1)] => destruct (violated x (rows w1))
      end; intros H; [injection H as <- _ _; eauto | discriminate H].
  - intros HQ. revert HC.
    unfold repository.Create, gorm_Create.
    destruct (BeforeCreate p w) as [p0 w0] eqn:HB.
    assert (Hw0 : db_env w0 (db_calls w0) = db_env w (db_calls w) /\
                  rows w0 = rows w).
    { unfold BeforeCreate, uuid_New in HB.
      destruct (N.eqb (ID p) uuid_Nil); injection HB as <- <-; auto. }
    destruct Hw0 as [Hw0 Hr0].
    destruct (arrive w0) as [o w1] eqn:Ha.
    apply arrive_inv in Ha. destruct Ha as [_ [_ [_ [Hq _]]]].
    rewrite Hw0 in Hq. destruct (Hq HQ) as [-> Hr1].
    match goal with
    | |- context [violated ?x (rows w1)] => destruct (violated x (rows w1))
    end; intros H; [injection H as _ _ <-; congruence | discriminate H].
Qed.

Lemma X7_create_rejects_stored_key_witness :
  fst (fst (repository.Create unsaved_k1 world_after_k1))
  = Some (ErrUniqueViolation "idx_payments_idempotency_key") /\
  rows (snd (repository.Create unsaved_k1 world_after_k1))
  = rows world_after_k1.
Proof.
  destruct (repository.Create unsaved_k1 world_after_k1)
    as [[e p'] w'] eqn:HC.
  destruct (X7_create_rejects_stored_key unsaved_k1 world_after_k1 e p' w')
    as [_ [_ [Hrows _]]].
  - vm_compute. reflexivity.
  - exact HC.
  - simpl. split; [|apply Hrows; vm_compute; reflexivity].
    change e with (fst (fst (e, p', w'))). rewrite <- HC.
    vm_compute. reflexivity.
Defined.




(** X9. The two lookups of the repository never hand gorm's
    record-not-found error to the caller. GetByIdempotencyKey answers
    absence with "no record and no error", GetByID with the error "payment
    not found"; a record that is returned is a row of the table with the
    key (the id) asked for; any other error is the fault of the statement,
    passed on unchanged. *)
Theorem X9_lookup_absence (w : World) :
  (forall key r w',
     repository.GetByIdempotencyKey key w = (r, w') ->
     match r with
     | Ok (Some p) => In p (rows w') /\ IdempotencyKey p = key
     | Ok None => forall p, In p (rows w') -> IdempotencyKey p <> key
     | Err e => exists msg, e = ErrDriver msg /\
                            db_env w (db_calls w) = Fault msg
     end) /\
  (forall id r w',
     repository.GetByID id w = (r, w') ->
     match r with
     | Ok p => In p (rows w') /\ ID p = id
     | Err e =>
         (e = errorString "payment not found" /\
          forall p, In p (rows w') -> ID p <> id) \/
         (exists msg, e = ErrDriver msg /\ db_env w (db_calls w) = Fault msg)
     end).
Proof.
  split.
  - intros key r w'. rewrite GetByIdempotencyKey_eq.
    destruct (arrive w) as [[msg|] w1] eqn:Ha; intros H; injection H as <- <-.
    + exists msg. split; [reflexivity|].
      apply arrive_inv in Ha. destruct Ha as [_ [_ [_ [_ [_ Hs]]]]].
      apply (Hs msg eq_refl).
    + destruct (find (same_key key) (rows w1)) as [p|] eqn:Hf.
      * apply find_some in Hf. destruct Hf as [Hin Hk].
        split; [exact Hin | apply same_key_true; exact Hk].
      * intros p Hin Hk.
        pose proof (find_none _ _ Hf p Hin) as Hn.
        apply same_key_true in Hk. congruence.
  - intros id r w'. rewrite GetByID_eq.
    destruct (arrive w) as [[msg|] w1] eqn:Ha.
    + intros H; injection H as <- <-. right. exists msg. split; [reflexivity|].
      apply arrive_inv in Ha. destruct Ha as [_ [_ [_ [_ [_ Hs]]]]].
      apply (Hs msg eq_refl).
    + destruct (find (same_id id) (rows w1)) as [p|] eqn:Hf;
        intros H; injection H as <- <-.
      * apply find_some in Hf. destruct Hf as [Hin Hk].
        split; [exact Hin | apply same_id_true; exact Hk].
      * left. split; [reflexivity|]. intros p Hin Hk.
        pose proof (find_none _ _ Hf p Hin) as Hn.
        apply same_id_true in Hk. congruence.
Qed.

(* ================================================================== *)
(** ** The printed id reads back *)








Lemma uuid_stamp_is_uuid (r : N) : is_uuid (uuid_stamp r).
Proof.
  unfold is_uuid, uuid_stamp.
  assert (Hr : (r mod 2 ^ 128 < 2 ^ 128)%N) by (apply N.mod_lt; discriminate).
  set (x := (r mod 2 ^ 128)%N) in *. clearbody x.
  assert (Hbits : forall y, (y < 2 ^ 128)%N ->
                    forall m, (128 <= m)%N -> N.testbit y m = false).
  { intros y Hy m Hm. destruct (N.eq_dec y 0) as [->|Hy0]; [apply N.bits_0|].
    apply N.bits_above_log2. apply N.log2_lt_pow2; [lia|].
    apply N.lt_le_trans with (2 ^ 128)%N; [exact Hy|].
    apply N.pow_le_mono_r; [discriminate | exact Hm]. }
  assert (Hlt : forall y, (forall m, (128 <= m)%N -> N.testbit y m = false) ->
                          (y < 2 ^ 128)%N).
  { intros y Hy. destruct (N.eq_dec y 0) as [->|Hy0]; [reflexivity|].
    apply N.log2_lt_pow2; [lia|].
    destruct (N.lt_ge_cases (N.log2 y) 128) as [Hl|Hl]; [exact Hl|].
    pose proof (N.bit_log2 y Hy0) as Hb. rewrite (Hy _ Hl) in Hb. discriminate. }
  apply Hlt. intros m Hm. specialize (Hbits x Hr m Hm).
  rewrite N.setbit_neq by lia.
  rewrite !N.clearbit_neq by lia.
  rewrite N.setbit_neq by lia.
  rewrite !N.clearbit_neq by lia.
  exact Hbits.
Qed.

(* ================================================================== *)
(** ** What a submission leaves in the table *)

Lemma find_id_unique (tbl : list Payment) (p : Payment) :
  NoDup (map ID tbl) -> In p tbl -> find (same_id (ID p)) tbl = Some p.
Proof.
  induction tbl as [|a tbl IH]; simpl; [tauto|].
  intros Hnd Hin. apply NoDup_cons_iff in Hnd. destruct Hnd as [Hni Hnd].
  destruct (same_id (ID p) a) eqn:Ha.
  - apply same_id_true in Ha. destruct Hin as [->|Hin]; [reflexivity|].
    exfalso. apply Hni. rewrite Ha. apply in_map. exact Hin.
  - destruct Hin as [->|Hin]; [|exact (IH Hnd Hin)].
    rewrite (proj2 (same_id_true _ _) eq_refl) in Ha. discriminate.
Qed.

Lemma find_key_unique (tbl : list Payment) (p : Payment) :
  NoDup (map IdempotencyKey tbl) -> In p tbl ->
  find (same_key (IdempotencyKey p)) tbl = Some p.
Proof.
  induction tbl as [|a tbl IH]; simpl; [tauto|].
  intros Hnd Hin. apply NoDup_cons_iff in Hnd. destruct Hnd as [Hni Hnd].
  destruct (same_key (IdempotencyKey p) a) eqn:Ha.
  - apply same_key_true in Ha. destruct Hin as [->|Hin]; [reflexivity|].
    exfalso. apply Hni. rewrite Ha. apply in_map. exact Hin.
  - destruct Hin as [->|Hin]; [|exact (IH Hnd Hin)].
    rewrite (proj2 (same_key_true _ _) eq_refl) in Ha. discriminate.
Qed.

Lemma grows_appends (t t' : list Payment) :
  grows t t' -> exists l, t' = (t ++ l)%list.
Proof.
  induction 1 as [|t1 t2 q _ [l ->] _].
  - exists []. rewrite app_nil_r. reflexivity.
  - exists (l ++ [q])%list. rewrite app_assoc. reflexivity.
Qed.

(** What Update does to the table. *)
Lemma Update_rows (p : Payment) (w : World) (e : option error) (p' : Payment)
    (w' : World) :
  repository.Update p w = (e, p', w') -> ID p <> uuid_Nil ->
  exists t1, grows (rows w) t1 /\
    (rows w' = t1 \/ rows w' = overwrite p' t1 \/
     (violated p' t1 = None /\ rows w' = (t1 ++ [p'])%list)).
Proof.
  unfold repository.Update, gorm_Save. intros H Hnn.
  rewrite (proj2 (N.eqb_neq _ _) Hnn) in H.
  destruct (arrive w) as [o w1] eqn:Ha. apply arrive_grows in Ha.
  exists (rows w1). split; [exact Ha|].
  destruct o as [msg|]; [injection H as _ _ <-; auto|].
  match type of H with
  | context [existsb ?f (rows w1)] => destruct (existsb f (rows w1))
  end.
  - injection H as _ <- <-. right. left. reflexivity.
  - match type of H with
    | context [violated ?x (rows w1)] => destruct (violated x (rows w1)) eqn:Hv
    end; injection H as _ <- <-; auto.
Qed.

Lemma retry_loop_rows (n : nat) :
  forall (i : Z) (p : Payment) (l : option error) (w : World)
         (p' : Payment) (w' : World),
  retry_loop n i p l w = (None, p', w') -> ID p <> uuid_Nil ->
  exists t1, grows (rows w) t1 /\
    (rows w' = t1 \/ rows w' = overwrite p' t1 \/
     (violated p' t1 = None /\ rows w' = (t1 ++ [p'])%list)).
Proof.
  induction n as [|n IH]; intros i p l w p' w' H Hnn.
  - simpl in H. discriminate.
  - destruct (gateway w (attempts w)) eqn:Hg.
    + rewrite (loop_fail_step n i p l w Hg) in H.
      apply IH in H; [|exact Hnn].
      destruct (i <? MaxRetries - 1); exact H.
    + rewrite (loop_success_step n i p l w Hg) in H.
      match type of H with
      | context [repository.Update ?q ?v] =>
          destruct (repository.Update q v) as [[e1 q1] v1] eqn:HU
      end.
      injection H as <- <-.
      apply Update_rows in HU; [exact HU | exact Hnn].
Qed.

(** The record under the key after a submission that stored it: the
    record as Create stored it or as the final update wrote it. *)
Lemma created_stored (req : CreatePaymentRequest) (w w1 w2 : World)
    (p1 : Payment) :
  valid req ->
  repository.GetByIdempotencyKey (req_IdempotencyKey req) w = (Ok None, w1) ->
  repository.Create (fresh req) w1 = (None, p1, w2) ->
  exists q w' stored,
    CreatePayment req w = (Ok (toPaymentResponse q), w') /\
    same_identity p1 q /\
    find (same_key (req_IdempotencyKey req)) (rows w') = Some stored /\
    (stored = p1 \/ stored = q).
Proof.
  intros Hv HG HC.
  destruct (Create_inv _ _ _ _ _ HC eq_refl) as [_ [Hsf [Hnn _]]].
  assert (Hk : IdempotencyKey p1 = req_IdempotencyKey req)
    by (apply (sf_IdempotencyKey _ _ Hsf)).
  destruct (Create_rows _ _ _ _ _ HC) as [t0 [_ [Hvio Hrows]]].
  apply violated_None in Hvio. destruct Hvio as [_ Hnk]. rewrite Hk in Hnk.
  assert (Hfind : forall t1, grows (rows w2) t1 ->
            find (same_key (req_IdempotencyKey req)) t1 = Some p1).
  { intros t1 Hg. destruct (grows_appends _ _ Hg) as [l ->].
    apply find_app_some. rewrite Hrows.
    rewrite find_app_none by (apply existsb_false_find, Hnk).
    simpl. rewrite (proj2 (same_key_true _ _) Hk). reflexivity. }
  assert (Hcases : forall q t1 rows',
            ID q = ID p1 -> IdempotencyKey q = req_IdempotencyKey req ->
            grows (rows w2) t1 ->
            (rows' = t1 \/ rows' = overwrite q t1 \/
             (violated q t1 = None /\ rows' = (t1 ++ [q])%list)) ->
            exists stored,
              find (same_key (req_IdempotencyKey req)) rows' = Some stored /\
              (stored = p1 \/ stored = q)).
  { intros q t1 rows' Hid Hkq Hg [->|[->|[_ ->]]].
    - exists p1. split; [exact (Hfind _ Hg) | left; reflexivity].
    - exists q. split; [|right; reflexivity].
      apply (find_key_overwrite _ q p1); [exact (Hfind _ Hg) | congruence | exact Hkq].
    - exists p1. split; [|left; reflexivity].
      apply find_app_some. exact (Hfind _ Hg). }
  rewrite (CreatePayment_created req w w1 w2 p1 Hv HG HC).
  unfold processPaymentWithRetry.
  destruct (retry_loop (Z.to_nat MaxRetries) 0 p1 None w2) as [[e3 p3] w3] eqn:HL.
  destruct (retry_loop_inv _ _ _ _ _ _ _ _ HL Hnn) as [Hsi [_ [_ [_ Hres]]]].
  destruct e3 as [err|].
  - destruct Hres as [_ [Hr3 _]].
    set (q := with_FailureReason (Error err) (with_Status StatusFailed p3)).
    assert (Hq : ID q = ID p1) by (apply (si_ID _ _ Hsi)).
    destruct (repository.Update q w3) as [[e4 p4] w4] eqn:HU.
    pose proof (Update_inv _ _ _ _ _ HU ltac:(rewrite Hq; exact Hnn)) as [Hp4 _].
    apply Update_rows in HU; [|rewrite Hq; exact Hnn].
    destruct HU as [t1 [Hg Hrw]]. rewrite Hr3 in Hg.
    destruct (Hcases p4 t1 (rows w4)) as [stored [Hf Hs]];
      [subst p4; exact Hq
      |subst p4; simpl; rewrite (si_IdempotencyKey _ _ Hsi); exact Hk
      |exact Hg|exact Hrw|].
    exists p4, w4, stored. split; [reflexivity|].
    split; [subst p4; destruct Hsi; constructor; assumption|].
    split; assumption.
  - apply retry_loop_rows in HL; [|exact Hnn].
    destruct HL as [t1 [Hg Hrw]].
    destruct (Hcases p3 t1 (rows w3)) as [stored [Hf Hs]];
      [apply (si_ID _ _ Hsi)
      |rewrite (si_IdempotencyKey _ _ Hsi); exact Hk
      |exact Hg|exact Hrw|].
    exists p3, w3, stored. split; [reflexivity|]. split; [exact Hsi|].
    split; assumption.
Qed.




Lemma Create_id_is_uuid (p : Payment) (w : World) (e : option error)
    (p' : Payment) (w' : World) :
  repository.Create p w = (e, p', w') -> ID p = uuid_Nil -> is_uuid (ID p').
Proof.
  unfold repository.Create, gorm_Create, BeforeCreate, uuid_New.
  intros H Hnil. rewrite Hnil in H. simpl in H.
  destruct (arrive (set_uuid_calls (S (uuid_calls w)) w)) as [o w1].
  assert (Hid : forall q c, 
            ID (if UpdatedAt (if CreatedAt q =? 0 then with_CreatedAt c q else q)
                  =? 0
                then with_UpdatedAt c
                       (if CreatedAt q =? 0 then with_CreatedAt c q else q)
                else if CreatedAt q =? 0 then with_CreatedAt c q else q) = ID q).
  { intros q c. destruct (CreatedAt q =? 0); simpl;
      destruct (UpdatedAt q =? 0); reflexivity. }
  destruct o as [msg|].
  - injection H as _ <- _.
    rewrite (Hid (with_ID (uuid_stamp (uuid_rand w (uuid_calls w))) p)).
    apply uuid_stamp_is_uuid.
  - match type of H with
    | context [violated ?x (rows w1)] => destruct (violated x (rows w1))
    end; injection H as _ <- _;
      rewrite (Hid (with_ID (uuid_stamp (uuid_rand w (uuid_calls w))) p));
      apply uuid_stamp_is_uuid.
Qed.

(** X11. A submission that stores a new record answers with the amount
    and currency of the request, the time of the submission as creation
    time and a status that is Success or Failed. The record then found
    under the key carries the user id, amount, currency and key of the
    request, so its amount lies in [MinAmount, MaxAmount] and its currency
    has length 3, and its id is a non-nil UUID. *)
Theorem X11_new_payment_echoes_request (req : CreatePaymentRequest)
    (w w1 : World) (p1 : Payment) (w2 : World) :
  valid req ->
  repository.GetByIdempotencyKey (req_IdempotencyKey req) w = (Ok None, w1) ->
  repository.Create (fresh req) w1 = (None, p1, w2) ->
  exists r w' stored,
    CreatePayment req w = (Ok r, w') /\
    resp_Amount r = req_Amount req /\
    resp_Currency r = req_Currency req /\
    resp_CreatedAt r = clock w /\
    terminal (resp_Status r) /\
    find (same_key (req_IdempotencyKey req)) (rows w') = Some stored /\
    PaymentID r = uuid_String (ID stored) /\
    UserID stored = req_UserID req /\
    Amount stored = req_Amount req /\
    Currency stored = req_Currency req /\
    IdempotencyKey stored = req_IdempotencyKey req /\
    MinAmount <= Amount stored <= MaxAmount /\
    String.length (Currency stored) = 3%nat /\
    is_uuid (ID stored) /\ ID stored <> uuid_Nil.
Proof.
  intros Hv HG HC.
  destruct (created_stored req w w1 w2 p1 Hv HG HC)
    as [q [w' [stored [HCP [[S1 S2 S3 S4 S5 S6] [Hf Hs]]]]]].
  destruct (created_outcome req w w1 w2 p1 Hv HG HC)
    as [q2 [w2' [HCP2 [_ [Hterm _]]]]].
  assert (Hst : Status q = Status q2).
  { rewrite HCP in HCP2. apply (f_equal fst) in HCP2. simpl in HCP2.
    assert (Hr : toPaymentResponse q = toPaymentResponse q2) by congruence.
    exact (f_equal resp_Status Hr). }
  destruct (Create_inv _ _ _ _ _ HC eq_refl)
    as [_ [[F1 F2 F3 F4 F5 F6 F7] [Hnn [Hca _]]]].
  pose proof (Create_id_is_uuid _ _ _ _ _ HC eq_refl) as Hu.
  pose proof (GetByIdempotencyKey_frame _ _ _ _ HG) as G.
  specialize (Hca eq_refl). rewrite (frame_clock _ _ G) in Hca.
  simpl in F1, F2, F3, F5.
  destruct Hv as [V1 [V2 [V3 _]]].
  exists (toPaymentResponse q), w', stored.
  split; [exact HCP|]. simpl.
  split; [congruence|]. split; [congruence|]. split; [congruence|].
  split; [rewrite Hst; exact Hterm|]. split; [exact Hf|].
  destruct Hs as [->| ->].
  - repeat split; try congruence; try lia; try (rewrite F2; lia).
  - repeat split; try congruence; try lia;
      try (rewrite S3, F2; lia); try (rewrite S1; assumption).
Qed.

Lemma X11_new_payment_echoes_request_witness :
  exists r w',
    CreatePayment req_k1 (world0 quiet (fails_first 1)) = (Ok r, w') /\
    resp_Amount r = 10000 /\ resp_Currency r = "INR" /\
    resp_CreatedAt r = 1700000000.
Proof.
  destruct (X11_new_payment_echoes_request req_k1
              (world0 quiet (fails_first 1))
              (set_db_calls 1 (world0 quiet (fails_first 1)))
              pending_k1
              (snd (repository.Create (fresh req_k1)
                      (set_db_calls 1 (world0 quiet (fails_first 1))))))
    as [r [w' [stored [HCP [Ham [Hcu [Hcr _]]]]]]].
  - unfold valid, MinAmount, MaxAmount. simpl.
    repeat split; try lia; discriminate.
  - vm_compute. reflexivity.
  - vm_compute. reflexivity.
  - exists r, w'. auto.
Defined.

Lemma run_table_ok (ops : list op) :
  forall w : World, table_ok (rows w) -> table_ok (rows (run ops w)).
Proof.
  unfold run. induction ops as [|o ops IH]; intros w Hok; simpl; [exact Hok|].
  apply IH. apply exec_table_ok. exact Hok.
Qed.

(** X12. A record that sits in the table with status Initiated (left there
    by a lost update, say) is never taken up again. After any run of
    submissions and fetches it is still in the table as it was, and a valid
    submission under its key makes no attempt and answers with that record,
    status INITIATED, unless the lookup itself faults. *)
Theorem X12_initiated_record_is_never_resumed (w : World) (p : Payment)
    (ops : list op) :
  table_ok (rows w) -> In p (rows w) -> Status p = StatusInitiated ->
  In p (rows (run ops w)) /\
  forall req r w',
    valid req -> req_IdempotencyKey req = IdempotencyKey p ->
    CreatePayment req (run ops w) = (r, w') ->
    attempts w' = attempts (run ops w) /\ In p (rows w') /\
    (r = Ok {| PaymentID := uuid_String (ID p);
               resp_Status := StatusInitiated;
               resp_Amount := Amount p;
               resp_Currency := Currency p;
               resp_CreatedAt := CreatedAt p |} \/
     exists msg, r = Err (ErrDriver msg)).
Proof.
  intros Hok Hin Hst.
  pose proof (run_table_ok ops w Hok) as Hok'.
  assert (Hin' : In p (rows (run ops w))).
  { apply (find_some (same_id (ID p))).
    apply run_keeps_rows. destruct Hok as [Hids _].
    exact (find_id_unique _ _ Hids Hin). }
  split; [exact Hin'|].
  intros req r w' Hv Hk H.
  assert (Hf : find (same_key (req_IdempotencyKey req)) (rows (run ops w))
               = Some p).
  { rewrite Hk. destruct Hok' as [_ Hkeys].
    exact (find_key_unique _ _ Hkeys Hin'). }
  destruct (resubmission req (run ops w) r w' p Hv Hf H)
    as [[msg [Ha Hr]]|[Ha [Hr Hf']]].
  - apply arrive_inv in Ha. destruct Ha as [F [_ [_ [_ [_ Hs]]]]].
    split; [apply (frame_attempts _ _ F)|]. split.
    + destruct (Hs msg eq_refl) as [_ ->]. exact Hin'.
    + right. eauto.
  - pose proof (arrive_inv _ _ _ Ha) as [F _].
    split; [apply (frame_attempts _ _ F)|]. split.
    + apply (find_some _ _ Hf').
    + left. rewrite Hr. unfold toPaymentResponse. rewrite Hst. reflexivity.
Qed.

Lemma X12_initiated_record_is_never_resumed_witness :
  rows world_after_k1_lost = [pending_k1] /\
  In pending_k1
    (rows (run [Fetch "00000000-0000-4000-8000-0000000003e8";
                Submit req_k1_other] world_after_k1_lost)) /\
  fst (CreatePayment req_k1
         (run [Fetch "00000000-0000-4000-8000-0000000003e8";
               Submit req_k1_other] world_after_k1_lost))
  = Ok {| PaymentID := "00000000-0000-4000-8000-0000000003e8";
          resp_Status := "INITIATED"; resp_Amount := 10000;
          resp_Currency := "INR"; resp_CreatedAt := 1700000000 |}.
Proof.
  assert (Hr : rows world_after_k1_lost = [pending_k1])
    by (vm_compute; reflexivity).
  split; [exact Hr|].
  destruct (X12_initiated_record_is_never_resumed world_after_k1_lost
              pending_k1
              [Fetch "00000000-0000-4000-8000-0000000003e8";
               Submit req_k1_other]) as [Hin _].
  - rewrite Hr. split; repeat constructor; intros [].
  - rewrite Hr. left. reflexivity.
  - reflexivity.
  - split; [exact Hin|]. vm_compute. reflexivity.
Defined.

(* ================================================================== *)
(** ** The handlers *)

(** The status of the outcome of a submission that stored a new record,
    against the gateway. *)
Lemma created_status (req : CreatePaymentRequest) (w w1 w2 : World)
    (p1 : Payment) :
  valid req ->
  repository.GetByIdempotencyKey (req_IdempotencyKey req) w = (Ok None, w1) ->
  repository.Create (fresh req) w1 = (None, p1, w2) ->
  exists r w',
    CreatePayment req w = (Ok r, w') /\
    match first_ok (gateway w) (attempts w) (Z.to_nat MaxRetries) with
    | Some _ => resp_Status r = StatusSuccess
    | None => resp_Status r = StatusFailed
    end.
Proof.
  intros Hv HG HC.
  pose proof (GetByIdempotencyKey_frame _ _ _ _ HG) as F1.
  destruct (Create_inv _ _ _ _ _ HC eq_refl) as [F2 [_ [Hnn _]]].
  rewrite (CreatePayment_created req w w1 w2 p1 Hv HG HC).
  unfold processPaymentWithRetry.
  destruct (retry_loop (Z.to_nat MaxRetries) 0 p1 None w2) as [[e3 p3] w3] eqn:HL.
  pose proof (retry_loop_first_ok _ _ _ _ _ _ _ _ HL Hnn) as HF.
  rewrite (frame_gateway _ _ F2), (frame_gateway _ _ F1) in HF.
  rewrite (frame_attempts _ _ F2), (frame_attempts _ _ F1) in HF.
  destruct (retry_loop_inv _ _ _ _ _ _ _ _ HL Hnn) as [Hsi _].
  destruct (first_ok (gateway w) (attempts w) (Z.to_nat MaxRetries)) as [k|].
  - destruct HF as [-> [_ [Hst _]]]. exists (toPaymentResponse p3), w3.
    split; [reflexivity | exact Hst].
  - destruct HF as [[msg ->] _].
    match goal with
    | |- context [repository.Update ?a ?b] =>
        destruct (repository.Update a b) as [[e4 p4] w4] eqn:HU
    end.
    apply Update_inv in HU; [|simpl; rewrite (si_ID _ _ Hsi); exact Hnn].
    destruct HU as [-> _].
    eexists. eexists. split; [reflexivity|]. reflexivity.
Qed.

(** X13. For a request that passed binding and stores a new record, the
    handler answers 201 Created with a SUCCESS body exactly when the
    gateway accepts one of the MaxRetries attempts, and 200 OK with a
    FAILED body exactly when it refuses them all; it never answers with an
    error body. *)
Theorem X13_new_payment_status_code (req : CreatePaymentRequest)
    (w w1 : World) (p1 : Payment) (w2 : World) :
  valid req ->
  repository.GetByIdempotencyKey (req_IdempotencyKey req) w = (Ok None, w1) ->
  repository.Create (fresh req) w1 = (None, p1, w2) ->
  exists r w',
    (handler.CreatePayment (Ok req) w = (mkHTTP StatusCreated (PaymentBody r), w')
     /\ resp_Status r = StatusSuccess /\
     exists j, (j < Z.to_nat MaxRetries)%nat /\
               gateway w (attempts w + j)%nat = false) \/
    (handler.CreatePayment (Ok req) w = (mkHTTP StatusOK (PaymentBody r), w')
     /\ resp_Status r = StatusFailed /\
     forall j, (j < Z.to_nat MaxRetries)%nat ->
               gateway w (attempts w + j)%nat = true).
Proof.
  intros Hv HG HC.
  destruct (created_status req w w1 w2 p1 Hv HG HC) as [r [w' [HCP Hst]]].
  exists r, w'. unfold handler.CreatePayment. rewrite HCP.
  destruct (first_ok (gateway w) (attempts w) (Z.to_nat MaxRetries))
    as [k|] eqn:Hfo.
  - left. rewrite Hst. split; [reflexivity|]. split; [reflexivity|].
    apply first_ok_Some in Hfo. destruct Hfo as [Hk [Hok _]]. eauto.
  - right. rewrite Hst. split; [reflexivity|]. split; [reflexivity|].
    apply first_ok_None. exact Hfo.
Qed.

Lemma X13_new_payment_status_code_witness :
  code (fst (handler.CreatePayment (Ok req_k1) (world0 quiet (fails_first 2))))
  = 201 /\
  code (fst (handler.CreatePayment (Ok req_k1) (world0 quiet always_fail)))
  = 200.
Proof.
  assert (Hv : valid req_k1).
  { unfold valid, MinAmount, MaxAmount. simpl.
    repeat split; try lia; discriminate. }
  split.
  - destruct (X13_new_payment_status_code req_k1
                (world0 quiet (fails_first 2))
                (set_db_calls 1 (world0 quiet (fails_first 2))) pending_k1
                (snd (repository.Create (fresh req_k1)
                        (set_db_calls 1 (world0 quiet (fails_first 2)))))
                Hv ltac:(vm_compute; reflexivity)
                ltac:(vm_compute; reflexivity))
      as [r [w' [[H _]|[_ [_ Hall]]]]].
    + rewrite H. reflexivity.
    + specialize (Hall 2%nat ltac:(unfold MaxRetries; simpl; lia)).
      vm_compute in Hall. discriminate.
  - destruct (X13_new_payment_status_code req_k1
                (world0 quiet always_fail)
                (set_db_calls 1 (world0 quiet always_fail)) pending_k1
                (snd (repository.Create (fresh req_k1)
                        (set_db_calls 1 (world0 quiet always_fail))))
                Hv ltac:(vm_compute; reflexivity)
                ltac:(vm_compute; reflexivity))
      as [r [w' [[_ [_ [j [_ Hj]]]]|[H _]]]].
    + vm_compute in Hj. discriminate.
    + rewrite H. reflexivity.
Defined.



(** X15. A request that passed binding and whose key is already stored is
    answered with the stored record and no processing: 200 OK when that
    record is FAILED, and 201 Created otherwise, so also for a record that
    is SUCCESS or still INITIATED, although nothing is created. *)
Theorem X15_replay_status_code (req : CreatePaymentRequest) (w w1 : World)
    (p : Payment) :
  valid req ->
  repository.GetByIdempotencyKey (req_IdempotencyKey req) w
    = (Ok (Some p), w1) ->
  handler.CreatePayment (Ok req) w
  = (mkHTTP (if String.eqb (Status p) StatusFailed then 200 else 201)
       (PaymentBody (toPaymentResponse p)), w1) /\
  attempts w1 = attempts w /\
  (Status p = StatusFailed ->
   code (fst (handler.CreatePayment (Ok req) w)) = 200) /\
  (Status p = StatusSuccess \/ Status p = StatusInitiated ->
   code (fst (handler.CreatePayment (Ok req) w)) = 201).
Proof.
  intros Hv HG.
  assert (H : handler.CreatePayment (Ok req) w
              = (mkHTTP (if String.eqb (Status p) StatusFailed then 200 else 201)
                   (PaymentBody (toPaymentResponse p)), w1)).
  { unfold handler.CreatePayment.
    rewrite (CreatePayment_existing req w w1 p Hv HG). reflexivity. }
  split; [exact H|].
  split; [apply (frame_attempts _ _ (GetByIdempotencyKey_frame _ _ _ _ HG))|].
  rewrite H. simpl. split.
  - intros ->. reflexivity.
  - intros [-> | ->]; reflexivity.
Qed.

Lemma X15_replay_status_code_witness :
  code (fst (handler.CreatePayment (Ok req_k1) world_after_k1)) = 201 /\
  code (fst (handler.CreatePayment (Ok req_k1) world_after_k1_failed)) = 200 /\
  code (fst (handler.CreatePayment (Ok req_k1) world_after_k1_lost)) = 201.
Proof.
  assert (Hv : valid req_k1).
  { unfold valid, MinAmount, MaxAmount. simpl.
    repeat split; try lia; discriminate. }
  split; [|split].
  - apply (X15_replay_status_code req_k1 world_after_k1
             (set_db_calls 4 world_after_k1) stored_k1 Hv).
    + vm_compute. reflexivity.
    + left. reflexivity.
  - apply (proj1 (proj2 (proj2 (X15_replay_status_code req_k1
             world_after_k1_failed (set_db_calls 4 world_after_k1_failed)
             (mkPayment id_k1 "u1" 10000 "INR" StatusFailed "k1" 3
                "payment failed after 3 retries: payment gateway timeout"
                1700000000 2000000000) Hv
             ltac:(vm_compute; reflexivity))))).
    reflexivity.
  - apply (X15_replay_status_code req_k1 world_after_k1_lost
             (set_db_calls 4 world_after_k1_lost) pending_k1 Hv).
    + vm_compute. reflexivity.
    + right. reflexivity.
Defined.

(** X16. The fetch handler answers 200 with the stored record when the id
    parses and a row has it, and 404 "Payment not found" in every other
    case, the details telling them apart: "invalid payment ID format" for
    an id that does not parse (nothing is sent to the store), "payment not
    found" when no row has the id, and the text of the store's error when
    the statement faults. There is no other status code. *)
Theorem X16_fetch_status_codes (paymentID : string) (w : World) :
  (uuid_Parse paymentID = None ->
   handler.GetPayment paymentID w
   = (mkHTTP 404 (ErrorBody "Payment not found" "invalid payment ID format"),
      w)) /\
  (forall id msg w1,
     uuid_Parse paymentID = Some id -> arrive w = (Some msg, w1) ->
     handler.GetPayment paymentID w
     = (mkHTTP 404 (ErrorBody "Payment not found" msg), w1)) /\
  (forall id w1,
     uuid_Parse paymentID = Some id -> arrive w = (None, w1) ->
     find (same_id id) (rows w1) = None ->
     handler.GetPayment paymentID w
     = (mkHTTP 404 (ErrorBody "Payment not found" "payment not found"), w1)) /\
  (forall id w1 p,
     uuid_Parse paymentID = Some id -> arrive w = (None, w1) ->
     find (same_id id) (rows w1) = Some p ->
     handler.GetPayment paymentID w
     = (mkHTTP 200 (PaymentBody (toPaymentResponse p)), w1)) /\
  (code (fst (handler.GetPayment paymentID w)) = 200 \/
   code (fst (handler.GetPayment paymentID w)) = 404).
Proof.
  unfold handler.GetPayment, GetPayment.
  split; [|split; [|split; [|split]]].
  - intros ->. reflexivity.
  - intros id msg w1 -> Ha. rewrite GetByID_eq, Ha. reflexivity.
  - intros id w1 -> Ha Hf. rewrite GetByID_eq, Ha, Hf. reflexivity.
  - intros id w1 p -> Ha Hf. rewrite GetByID_eq, Ha, Hf. reflexivity.
  - destruct (uuid_Parse paymentID) as [id|]; [|right; reflexivity].
    rewrite GetByID_eq.
    destruct (arrive w) as [[msg|] w1]; [right; reflexivity|].
    destruct (find (same_id id) (rows w1)); [left | right]; reflexivity.
Qed.

Lemma X16_fetch_status_codes_witness :
  fst (handler.GetPayment "not-a-uuid" world_after_k1)
  = mkHTTP 404 (ErrorBody "Payment not found" "invalid payment ID format") /\
  fst (handler.GetPayment "00000000-0000-4000-8000-0000000003e8"
         world_after_k1)
  = mkHTTP 200 (PaymentBody (toPaymentResponse stored_k1)) /\
  fst (handler.GetPayment "00000000-0000-4000-8000-0000000003e8"
         (world0 (env_fault_at 0) always_ok))
  = mkHTTP 404 (ErrorBody "Payment not found" "connection reset by peer").
Proof.
  split; [|split].
  - rewrite (proj1 (X16_fetch_status_codes "not-a-uuid" world_after_k1));
      [reflexivity | vm_compute; reflexivity].
  - rewrite (proj1 (proj2 (proj2 (proj2 (X16_fetch_status_codes
               "00000000-0000-4000-8000-0000000003e8" world_after_k1))))
               id_k1 (set_db_calls 4 world_after_k1) stored_k1);
      [reflexivity | vm_compute; reflexivity | vm_compute; reflexivity
      | vm_compute; reflexivity].
  - rewrite (proj1 (proj2 (X16_fetch_status_codes
               "00000000-0000-4000-8000-0000000003e8"
               (world0 (env_fault_at 0) always_ok)))
               id_k1 "connection reset by peer"
               (set_db_calls 1 (world0 (env_fault_at 0) always_ok)));
      [reflexivity | vm_compute; reflexivity | vm_compute; reflexivity].
Defined.

(** X17. GetPayment only reads. It makes no processing attempt, does not
    sleep, draws no id, sends one statement when the id parses and none
    otherwise, and leaves every row of the table in place; an outcome it
    returns is that of a row whose id is the parsed one. *)
Theorem X17_fetch_only_reads (paymentID : string) (w : World) :
  attempts (snd (GetPayment paymentID w)) = attempts w /\
  sleeps (snd (GetPayment paymentID w)) = sleeps w /\
  clock (snd (GetPayment paymentID w)) = clock w /\
  uuid_calls (snd (GetPayment paymentID w)) = uuid_calls w /\
  db_calls (snd (GetPayment paymentID w))
  = match uuid_Parse paymentID with
    | Some _ => S (db_calls w)
    | None => db_calls w
    end /\
  grows (rows w) (rows (snd (GetPayment paymentID w))) /\
  (db_env w (db_calls w) = Quiet ->
   rows (snd (GetPayment paymentID w)) = rows w) /\
  (forall r, fst (GetPayment paymentID w) = Ok r ->
     exists p, In p (rows (snd (GetPayment paymentID w))) /\
               uuid_Parse paymentID = Some (ID p) /\
               r = toPaymentResponse p).
Proof.
  unfold GetPayment.
  destruct (uuid_Parse paymentID) as [id|].
  - rewrite GetByID_eq. destruct (arrive w) as [o w1] eqn:Ha.
    pose proof (arrive_grows _ _ _ Ha) as Hg.
    pose proof (arrive_inv _ _ _ Ha) as [[F1 F2 F3 F4 F5 F6] [Hu [_ [Hq _]]]].
    assert (Hw : forall (x : result PaymentResponse * World), snd x = w1 ->
              attempts (snd x) = attempts w /\ sleeps (snd x) = sleeps w /\
              clock (snd x) = clock w /\ uuid_calls (snd x) = uuid_calls w /\
              db_calls (snd x) = S (db_calls w) /\
              grows (rows w) (rows (snd x)) /\
              (db_env w (db_calls w) = Quiet -> rows (snd x) = rows w)).
    { intros x ->. repeat split; try assumption. intros HQ. apply (Hq HQ). }
    destruct o as [msg|].
    + destruct (Hw (Err (ErrDriver msg), w1) eq_refl)
        as [H1 [H2 [H3 [H4 [H5 [H6 H7]]]]]].
      repeat split; try assumption. intros r Hr. discriminate.
    + destruct (find (same_id id) (rows w1)) as [p|] eqn:Hf.
      * destruct (Hw (Ok (toPaymentResponse p), w1) eq_refl)
          as [H1 [H2 [H3 [H4 [H5 [H6 H7]]]]]].
        repeat split; try assumption. intros r Hr. simpl in Hr.
        injection Hr as <-. apply find_some in Hf. destruct Hf as [Hin Hid].
        exists p. split; [exact Hin|]. split; [|reflexivity].
        apply same_id_true in Hid. congruence.
      * destruct (Hw (Err (errorString "payment not found"), w1) eq_refl)
          as [H1 [H2 [H3 [H4 [H5 [H6 H7]]]]]].
        repeat split; try assumption. intros r Hr. discriminate.
  - simpl. repeat split; try reflexivity; try apply grows_refl.
    intros r Hr. discriminate.
Qed.

(** X18. After the BeforeCreate hook a record always has a non-nil id of
    sixteen bytes when it had none. A record that has an id keeps it and no
    id is drawn; a record without one gets a fresh id and is otherwise
    unchanged. Running the hook again changes nothing more. *)
Theorem X18_before_create_assigns_id_once (p : Payment) (w : World) :
  (ID p <> uuid_Nil -> BeforeCreate p w = (p, w)) /\
  (ID p = uuid_Nil ->
   ID (fst (BeforeCreate p w)) <> uuid_Nil /\
   is_uuid (ID (fst (BeforeCreate p w))) /\
   fst (BeforeCreate p w) = with_ID (ID (fst (BeforeCreate p w))) p /\
   uuid_calls (snd (BeforeCreate p w)) = S (uuid_calls w) /\
   rows (snd (BeforeCreate p w)) = rows w) /\
  ID (fst (BeforeCreate p w)) <> uuid_Nil /\
  (forall v, BeforeCreate (fst (BeforeCreate p w)) v
             = (fst (BeforeCreate p w), v)).
Proof.
  assert (Hnn : ID (fst (BeforeCreate p w)) <> uuid_Nil).
  { unfold BeforeCreate, uuid_New.
    destruct (N.eqb_spec (ID p) uuid_Nil) as [Hnil|Hne]; simpl;
      [apply uuid_stamp_not_Nil | exact Hne]. }
  split; [|split; [|split]].
  - intros Hne. unfold BeforeCreate.
    rewrite (proj2 (N.eqb_neq _ _) Hne). reflexivity.
  - intros Hnil. split; [exact Hnn|].
    unfold BeforeCreate, uuid_New. rewrite Hnil. simpl.
    split; [apply uuid_stamp_is_uuid|]. auto.
  - exact Hnn.
  - intros v. unfold BeforeCreate at 1.
    rewrite (proj2 (N.eqb_neq _ _) Hnn). reflexivity.
Qed.

Lemma X18_before_create_assigns_id_once_witness :
  BeforeCreate pending_k1 (world0 quiet always_ok)
  = (pending_k1, world0 quiet always_ok) /\
  ID (fst (BeforeCreate unsaved_k1 (world0 quiet always_ok))) = id_k1.
Proof.
  split.
  - apply (proj1 (X18_before_create_assigns_id_once pending_k1
                    (world0 quiet always_ok))).
    vm_compute. discriminate.
  - vm_compute. reflexivity.
Defined.


